(** * Gesture state-machine engines of myMediapipe: a shallow embedding

    The calculators under [calculators/gestures] are embedded as pure
    state-transition functions: the private members of a calculator class
    form a record, [Process] maps that record and the inputs of one frame to
    a [Status] holding the next record and the packets added to the output
    streams.

    Conventions of the embedding:
    - [int], [int32] are [Z]; signed overflow and out-of-range element
      access are undefined behaviour in C++ and surface as
      [UndefinedBehaviour];
    - [float] and [double] quantities (seconds, angles, landmark
      coordinates, thresholds) are exact rationals [Q]: comparisons and
      truncation are those of the source, rounding of the binary formats is
      not represented;
    - a MediaPipe [Timestamp] is its integer count of microseconds. *)

From stdpp Require Import gmap strings.
From Stdlib Require Import ZArith QArith Qround List Bool Ascii Lia.
Import ListNotations.

Local Open Scope Z_scope.

(** ** Status: the result of [Open] and [Process] *)

Inductive StatusError : Type :=
| RetCheckFailure (message : string)
| UndefinedBehaviour.

Inductive Status (A : Type) : Type :=
| OkStatus (a : A)
| ErrStatus (e : StatusError).

Arguments OkStatus {A} a.
Arguments ErrStatus {A} e.

Definition bind {A B : Type} (m : Status A) (k : A -> Status B) : Status B :=
  match m with
  | OkStatus a => k a
  | ErrStatus e => ErrStatus e
  end.

Notation "x <- m ;; k" := (bind m (fun x => k))
  (at level 100, m at next level, right associativity).
Notation "m ;;; k" := (bind m (fun _ => k))
  (at level 100, right associativity).

(** [RET_CHECK(cond) << message] *)
Definition RET_CHECK (cond : bool) (message : string) : Status unit :=
  if cond then OkStatus tt else ErrStatus (RetCheckFailure message).

(** ** Framework types shared by the calculators *)

Definition Timestamp : Type := Z.

(** [Timestamp::Seconds()]: microseconds over one million. *)
Definition Seconds (t : Timestamp) : Q := t # 1000000.

(** [Timestamp::NextAllowedInStream()] for a timestamp in the ordinary range. *)
Definition NextAllowedInStream (t : Timestamp) : Timestamp := t + 1.

Record Packet (A : Type) : Type := MakePacket { value : A; At : Timestamp }.
Arguments MakePacket {A} value At.
Arguments value {A} p.
Arguments At {A} p.

(** Modelled from the spec: the message formats exchanged on the streams
    (mqtt_message.proto, angles.proto and the framework's landmark and
    detection formats) are not part of the sources. A command is a topic
    and a payload; an angle sample is the pair (angle1, angle2) of a
    landmark; a landmark is a normalized position; a detection carries the
    label ids read with [label_id().Get(0)]. *)
Module Formats.

Record Mqtt_Message : Type := { topic : string; payload : string }.
Definition MqttMessages : Type := list Mqtt_Message.

Record Angle : Type := { angle1 : Q; angle2 : Q }.
Definition Angles : Type := list Angle.

Record NormalizedLandmark : Type := { x : Q; y : Q; z : Q }.
Definition Landmarks : Type := list NormalizedLandmark.

Record Detection : Type := { label_id : list Z }.
Definition Detections : Type := list Detection.

End Formats.
Import Formats.

(** [v[i]] on a [std::vector] or a repeated field: reading outside the
    range is undefined. *)
Definition element_at {A : Type} (v : list A) (i : Z) : Status A :=
  if i <? 0 then ErrStatus UndefinedBehaviour
  else match nth_error v (Z.to_nat i) with
       | Some a => OkStatus a
       | None => ErrStatus UndefinedBehaviour
       end.

(** [input_detections.back().label_id().Get(0)] *)
Definition back_label_id (input_detections : Detections) : Status Z :=
  match last (map Some input_detections) None with
  | Some input_detection => element_at (label_id input_detection) 0
  | None => ErrStatus UndefinedBehaviour
  end.

(** [a >= b] on seconds, angles and coordinates. *)
Definition Qge_bool (a b : Q) : bool := Qle_bool b a.

(** The result of an [int]-typed expression: outside the 32-bit range the
    behaviour is undefined. *)
Definition as_int (n : Z) : Status Z :=
  if (-2147483648 <=? n) && (n <=? 2147483647) then OkStatus n
  else ErrStatus UndefinedBehaviour.

(** [abs(n)] on [int]. *)
Definition int_abs (n : Z) : Status Z := as_int (Z.abs n).

(** The last entry of a list that satisfies [p]: the value left in a
    variable by a loop without [break] that assigns on every match. *)
Definition find_last {A : Type} (p : A -> bool) (l : list A) : option A :=
  find p (rev l).

(** ** transition_dynamic_gestures_calculator.cc *)

Module Transition.

Record Mqtt : Type := { topic : string; payload : string }.

Record _actions : Type := {
  startAction : Z;
  endAction : Z;
  mqtt : Mqtt;
  notEmpty : bool
}.

(** [(struct _actions){0}] *)
Definition zero_actions : _actions :=
  {| startAction := 0; endAction := 0;
     mqtt := {| topic := ""; payload := "" |}; notEmpty := false |}.

(** Modelled from the spec: the options message
    (transition_dynamic_gestures_calculator.proto) is not part of the
    sources. One [actions_map] entry is a (start gesture id, end gesture
    id) pair with its command, read in [Open] through [start_action()],
    [end_action()] and [mqtt_message()]; the options hold the timeout and
    the ordered entries. *)
Record transitionActionMap : Type := {
  start_action : Z;
  end_action : Z;
  mqtt_message : Mqtt_Message
}.

Record transitionDynamicGesturesCalculatorOptions : Type := {
  time_out_s : Q;
  actions_map : list transitionActionMap
}.

(** The private members of the calculator ([options_] is the section
    variable below). *)
Record Calculator : Type := {
  currentAction : _actions;
  startingGestureTime : Q;
  actionsMap : list _actions;
  mqttMessages : MqttMessages
}.

Record Inputs : Type := {
  InputTimestamp : Timestamp;
  DETECTIONS : option Detections   (* [None]: the stream is empty this frame *)
}.

Record Outputs : Type := {
  MQTT_MESSAGE : list (Packet MqttMessages);
  FLAG : list (Packet bool)
}.

Definition set_armed (c : Calculator) (a : _actions) (t : Q) : Calculator :=
  {| currentAction := a; startingGestureTime := t;
     actionsMap := actionsMap c; mqttMessages := mqttMessages c |}.

Definition set_mqttMessages (c : Calculator) (m : MqttMessages) : Calculator :=
  {| currentAction := currentAction c;
     startingGestureTime := startingGestureTime c;
     actionsMap := actionsMap c; mqttMessages := m |}.

(** [clear(currentAction, startingGestureTime)] *)
Definition clear (c : Calculator) : Calculator := set_armed c zero_actions 0%Q.

Definition loadAct (m : transitionActionMap) : _actions :=
  {| startAction := start_action m;
     endAction := end_action m;
     mqtt := {| topic := Formats.topic (mqtt_message m);
                payload := Formats.payload (mqtt_message m) |};
     notEmpty := true |}.

(** The test [act_.startAction == label_id] of the scan. *)
Definition starts_with (label : Z) (a : _actions) : bool :=
  startAction a =? label.

(** The loop [for (auto act_ : actionsMap)] of [Process]: every entry whose
    start id is the label is assigned in turn. *)
Fixpoint scan_actions (label : Z) (t : Q) (acts : list _actions)
    (c : Calculator) : Calculator :=
  match acts with
  | [] => c
  | act_ :: rest =>
      scan_actions label t rest
        (if startAction act_ =? label then set_armed c act_ t else c)
  end.

Section WithOptions.

Variable options_ : transitionDynamicGesturesCalculatorOptions.

(** [Open], from the value-initialised members. *)
Definition Open : Status Calculator :=
  RET_CHECK (0 <=? Z.of_nat (length (actions_map options_)))
            "You should at least provide one action map";;;
  OkStatus {| currentAction := zero_actions;
              startingGestureTime := 0%Q;
              actionsMap := map loadAct (actions_map options_);
              mqttMessages := [] |}.

(** The members between two frames: the table built by [Open] and an
    empty batch. *)
Definition consistent (c : Calculator) : Prop :=
  actionsMap c = map loadAct (actions_map options_) /\ mqttMessages c = [].

Definition flag_packets (c : Calculator) (cc : Inputs) : list (Packet bool) :=
  if negb (notEmpty (currentAction c))
  then [MakePacket true (NextAllowedInStream (InputTimestamp cc))]
  else [].

Definition Process (c : Calculator) (cc : Inputs)
    : Status (Calculator * Outputs) :=
  match DETECTIONS cc with
  | None => OkStatus (c, {| MQTT_MESSAGE := []; FLAG := [] |})
  | Some input_detections =>
      label <- back_label_id input_detections;;
      let now := Seconds (InputTimestamp cc) in
      let '(c', sent) :=
        if negb (notEmpty (currentAction c)) then
          let c1 := scan_actions label now (actionsMap c) c in
          (* no gesture found *)
          let c2 := if negb (notEmpty (currentAction c1)) then clear c1 else c1 in
          (c2, [])
        else
          (* timeOut *)
          let c1 :=
            if Qge_bool (now - startingGestureTime c) (time_out_s options_)
            then clear c else c in
          (* execute action *)
          if notEmpty (currentAction c1) && (label =? endAction (currentAction c1))
          then
            let message :=
              {| Formats.topic := topic (mqtt (currentAction c1));
                 Formats.payload := payload (mqtt (currentAction c1)) |} in
            let batch := mqttMessages c1 ++ [message] in
            (set_mqttMessages (clear c1) [],
             [MakePacket batch (NextAllowedInStream (InputTimestamp cc))])
          else (c1, [])
      in
      OkStatus (c', {| MQTT_MESSAGE := sent; FLAG := flag_packets c' cc |})
  end.

(** An armed slot holds an entry of the table built by [Open]. *)
Definition from_table (c : Calculator) : Prop :=
  notEmpty (currentAction c) = true -> In (currentAction c) (actionsMap c).

(** [Process] over the frames of a stream, from the first to the last; the
    run ends at the first error. *)
Fixpoint run (c : Calculator) (frames : list Inputs)
    : Status (Calculator * list Outputs) :=
  match frames with
  | [] => OkStatus (c, [])
  | cc :: rest =>
      r <- Process c cc;;
      let '(c1, out) := r in
      r' <- run c1 rest;;
      let '(c2, outs) := r' in
      OkStatus (c2, out :: outs)
  end.

End WithOptions.

End Transition.

(** ** fixed_dynamic_gestures_calculator.cc *)

Module Fixed.

(** One [angle_limits] entry: the bounds read with [angle_limit_pos()] and
    [angle_limit_neg()]. *)
Record angleLimits : Type := { angle_limit_pos : Q; angle_limit_neg : Q }.

(** Modelled from the spec: the options message
    (fixed_dynamic_gestures_calculator.proto) is not part of the sources.
    One [fixed_actions_map] entry is a start gesture id, an optional
    landmark id and angle-slot selector with the ordered angle windows, the
    inter-repeat interval, the auto-repeat flag and the ordered payload
    entries, as read by the accessors of the source. The fields tested with
    [has_] in the source are options; an accessor of an absent field reads
    0. A window is the pair of its bounds. *)
Record fixedActionMap : Type := {
  start_action : Z;
  landmark_id : option Z;
  angle_number : option Z;
  angle_limits : list angleLimits;
  time_between_actions : Q;
  auto_repeat : bool;
  mqtt_message : list Mqtt_Message
}.

Record fixedDynamicGesturesCalculatorOptions : Type := {
  fixed_time_out_s : Q;
  fixed_actions_map : list fixedActionMap
}.

Record LastGesture : Type := {
  last_start_action : Z;   (* [LastGesture::start_action] *)
  time : Q;
  notEmpty : bool
}.

(** [(struct LastGesture){0}] *)
Definition zero_LastGesture : LastGesture :=
  {| last_start_action := 0; time := 0%Q; notEmpty := false |}.

(** Modelled from the spec: the generated class of the message
    [fixedActionMap] (fixed_dynamic_gestures_calculator.proto) is not part of
    the sources. The armed slot is "the currently-armed ActionConfig (or
    none)": [None] is the message after [Clear()], for which
    [IsInitialized()] is false, and [Some act] is a copy of a configured
    entry, for which it is true. *)
Record Calculator : Type := {
  currentAction : option fixedActionMap;
  lastGesture : LastGesture;
  mqttMessages : MqttMessages
}.

Definition IsInitialized (currentAction : option fixedActionMap) : bool :=
  match currentAction with Some _ => true | None => false end.

Record Inputs : Type := {
  InputTimestamp : Timestamp;
  DETECTIONS : option Detections;
  NORM_LANDMARKS : option Landmarks;
  ANGLES : option Angles
}.

Record Outputs : Type := {
  MQTT_MESSAGE : list (Packet MqttMessages);
  FLAG : list (Packet bool)
}.

(** [clear(currentAction, lastGesture)] *)
Definition clear (c : Calculator) : Calculator :=
  {| currentAction := None; lastGesture := zero_LastGesture;
     mqttMessages := mqttMessages c |}.

Definition setLastGesture (currentAction : fixedActionMap)
    (lastGestureTime : Q) : LastGesture :=
  {| last_start_action := start_action currentAction;
     time := lastGestureTime; notEmpty := true |}.

Definition getAngle (angleNumber lmId : Z) (angles : Angles) : Status Q :=
  a <- element_at angles lmId;;
  OkStatus (if angleNumber =? 1 then angle1 a else angle2 a).

Definition has_landmark_id (a : fixedActionMap) : bool :=
  match landmark_id a with Some _ => true | None => false end.

Definition has_angle_number (a : fixedActionMap) : bool :=
  match angle_number a with Some _ => true | None => false end.

Definition in_window (currAngle : Q) (lim : angleLimits) : bool :=
  Qle_bool currAngle (angle_limit_pos lim)
  && Qge_bool currAngle (angle_limit_neg lim).

(** The angle lies within the inclusive bounds of the window. *)
Definition contains (lim : angleLimits) (currAngle : Q) : Prop :=
  (angle_limit_neg lim <= currAngle /\ currAngle <= angle_limit_pos lim)%Q.

(** [k] is the index of the last window of [act] that contains the angle. *)
Definition last_window (act : fixedActionMap) (a : Q) (k : nat) : Prop :=
  (exists lim, nth_error (angle_limits act) k = Some lim /\ contains lim a)
  /\ forall j lim, (k < j)%nat ->
       nth_error (angle_limits act) j = Some lim -> ~ contains lim a.

(** The loop over [angle_limits(i)] of [executeAction], from index [i] on. *)
Fixpoint scan_windows (currAngle : Q) (messages : list Mqtt_Message)
    (i : nat) (limits : list angleLimits) (currCommand : Mqtt_Message)
    : Status Mqtt_Message :=
  match limits with
  | [] => OkStatus currCommand
  | lim :: rest =>
      if in_window currAngle lim then
        m <- element_at messages (Z.of_nat i);;
        scan_windows currAngle messages (S i) rest
          {| topic := topic m; payload := payload m |}
      else scan_windows currAngle messages (S i) rest currCommand
  end.

(** The command selected by [executeAction] before the test against the
    topic ["empty"]. *)
Definition select_command (act : fixedActionMap) (angles : Angles)
    : Status Mqtt_Message :=
  let currCommand := {| topic := "empty"; payload := "" |} in
  match landmark_id act with
  | Some lmId =>
      currAngle <- getAngle (default 0 (angle_number act)) lmId angles;;
      scan_windows currAngle (mqtt_message act) 0 (angle_limits act) currCommand
  | None =>
      m <- element_at (mqtt_message act) 0;;
      OkStatus {| topic := topic m; payload := payload m |}
  end.

(** [executeAction] on the armed action [act]; the packets added to
    MQTT_MESSAGE come with the next members. *)
Definition executeAction (act : fixedActionMap) (c : Calculator)
    (GestureTime : Q) (angles : Angles) (now : Timestamp)
    : Status (Calculator * list (Packet MqttMessages)) :=
  currCommand <- select_command act angles;;
  if negb (String.eqb (topic currCommand) "empty") then
    let batch := mqttMessages c ++ [currCommand] in
    OkStatus ({| currentAction := None;
                 lastGesture := setLastGesture act GestureTime;
                 mqttMessages := [] |},
              [MakePacket batch (NextAllowedInStream now)])
  else
    OkStatus ({| currentAction := None;
                 lastGesture := lastGesture c;
                 mqttMessages := [] |}, []).

(** The checks made on an entry when it is assigned to [currentAction]. *)
Definition check_action (act : fixedActionMap) : Status unit :=
  if has_landmark_id act then
    RET_CHECK (has_angle_number act) "angle_number not provided";;;
    RET_CHECK (Nat.eqb (length (angle_limits act)) (length (mqtt_message act)))
      "Command should have the same number of entries as angle_limits"
  else OkStatus tt.

(** The test [act_.start_action() == label_id] of the scan. *)
Definition starts_with (label : Z) (a : fixedActionMap) : bool :=
  start_action a =? label.

(** The loop [for (auto act_ : options_.fixed_actions_map())] of [Process].
    A failed check returns its error from [Process]: the scan stops there
    and the frame sends nothing. *)
Fixpoint scan_actions (label : Z) (acts : list fixedActionMap)
    (currentAction : option fixedActionMap) : Status (option fixedActionMap) :=
  match acts with
  | [] => OkStatus currentAction
  | act_ :: rest =>
      if start_action act_ =? label then
        check_action act_;;;
        scan_actions label rest (Some act_)
      else scan_actions label rest currentAction
  end.

Section WithOptions.

Variable options_ : fixedDynamicGesturesCalculatorOptions.

(** [Open], from the value-initialised members. *)
Definition Open : Status Calculator :=
  RET_CHECK (0 <=? Z.of_nat (length (fixed_actions_map options_)))
            "You should at least provide one action map";;;
  OkStatus {| currentAction := None; lastGesture := zero_LastGesture;
              mqttMessages := [] |}.

Definition required {A : Type} (stream : option A) : Status A :=
  match stream with
  | Some a => OkStatus a
  | None => ErrStatus (RetCheckFailure "")
  end.

Definition flag_packets (c : Calculator) (now : Timestamp) : list (Packet bool) :=
  if negb (IsInitialized (currentAction c))
  then [MakePacket true (NextAllowedInStream now)]
  else [].

(** [if (lastGesture.notEmpty && (lastGesture.start_action != label_id))
    clear(currentAction, lastGesture);] *)
Definition abort_on_label_change (c : Calculator) (label : Z) : Calculator :=
  if notEmpty (lastGesture c) && negb (last_start_action (lastGesture c) =? label)
  then clear c else c.

(** The first steps of [Process]: abort on a changed label, then arm. *)
Definition arm (c : Calculator) (label : Z) : Status Calculator :=
  let c1 := abort_on_label_change c label in
  if negb (IsInitialized (currentAction c1)) then
    found <- scan_actions label (fixed_actions_map options_) (currentAction c1);;
    match found with
    | Some act => OkStatus {| currentAction := Some act;
                              lastGesture := lastGesture c1;
                              mqttMessages := mqttMessages c1 |}
    | None => OkStatus (clear c1)   (* no gesture found *)
    end
  else OkStatus c1.

(** The members between two frames: the batch is empty, and an action left
    in [currentAction] is the one the scan selects for the gesture recorded
    in [lastGesture]. *)
Definition consistent (c : Calculator) : Prop :=
  mqttMessages c = []
  /\ forall act, currentAction c = Some act ->
       notEmpty (lastGesture c) = true
       /\ scan_actions (last_start_action (lastGesture c))
            (fixed_actions_map options_) None = OkStatus (Some act).

(** The block [if (currentAction.IsInitialized())] of [Process]. *)
Definition evaluate (c : Calculator) (now : Timestamp) (angles : Angles)
    : Status (Calculator * list (Packet MqttMessages)) :=
  match currentAction c with
  | None => OkStatus (c, [])
  | Some act =>
      fired <-
        (if negb (notEmpty (lastGesture c)) then
           (* first execution *)
           executeAction act c (Seconds now) angles now
         else if auto_repeat act
                 && Qge_bool (Seconds now - time (lastGesture c))
                             (time_between_actions act)
         then executeAction act c (Seconds now) angles now
         else OkStatus (c, []));;
      let '(c1, sent) := fired in
      (* TimeOut *)
      let c2 :=
        if Qge_bool (Seconds now - time (lastGesture c1))
                    (fixed_time_out_s options_)
        then clear c1 else c1 in
      OkStatus (c2, sent)
  end.

(** The frame carries a detection labelled [label], the landmarks and the
    angles. *)
Definition carries (cc : Inputs) (label : Z) (landmarks : Landmarks)
    (angles : Angles) : Prop :=
  (exists input_detections,
      DETECTIONS cc = Some input_detections
      /\ back_label_id input_detections = OkStatus label)
  /\ NORM_LANDMARKS cc = Some landmarks
  /\ ANGLES cc = Some angles.

Definition Process (c : Calculator) (cc : Inputs)
    : Status (Calculator * Outputs) :=
  input_detections <- required (DETECTIONS cc);;
  label <- back_label_id input_detections;;
  landmarks <- required (NORM_LANDMARKS cc);;
  angles <- required (ANGLES cc);;
  c1 <- arm c label;;
  r <- evaluate c1 (InputTimestamp cc) angles;;
  let '(c2, sent) := r in
  OkStatus (c2, {| MQTT_MESSAGE := sent;
                   FLAG := flag_packets c2 (InputTimestamp cc) |}).

(** [Process] over the frames of a stream, from the first to the last; the
    run ends at the first error. *)
Fixpoint run (c : Calculator) (frames : list Inputs)
    : Status (Calculator * list Outputs) :=
  match frames with
  | [] => OkStatus (c, [])
  | cc :: rest =>
      r <- Process c cc;;
      let '(c1, out) := r in
      r' <- run c1 rest;;
      let '(c2, outs) := r' in
      OkStatus (c2, out :: outs)
  end.

End WithOptions.

End Fixed.

(** ** moving_dynamic_gestures_calculator.cc *)

Module Moving.

(** The cases of [switch (currentAction.action_type())]. *)
Inductive ActionType : Type := TRASLATION | ROTATION.

(** Modelled from the spec: the options message
    (moving_dynamic_gestures_calculator.proto) is not part of the sources.
    One [moving_actions_map] entry is a start gesture id, a motion kind
    (translation or rotation), a landmark id, an angle-slot selector, a
    threshold, a sample interval, an auto-repeat flag, an optional maximum
    per firing ([max_repeat], the field tested with [has_max_repeat]), a
    topic and the positive and negative payloads. *)
Record movingActionMap : Type := {
  start_action : Z;
  action_type : ActionType;
  landmark_id : Z;
  angle_number : Z;
  action_threshold : Q;
  time_between_actions : Q;
  auto_repeat : bool;
  max_repeat : option Z;
  topic : string;
  positive_payload : string;
  negative_payload : string
}.

Record movingDynamicGesturesCalculatorOptions : Type := {
  moving_time_out_s : Q;
  moving_actions_map : list movingActionMap
}.

Record StartingGesture : Type := {
  starting_start_action : Z;   (* [StartingGesture::start_action] *)
  time : Q;
  angle : Q;
  lmInfo : NormalizedLandmark
}.

(** [(struct StartingGesture){0}] *)
Definition zero_StartingGesture : StartingGesture :=
  {| starting_start_action := 0; time := 0%Q; angle := 0%Q;
     lmInfo := {| x := 0%Q; y := 0%Q; z := 0%Q |} |}.

(** Modelled from the spec: the generated class of the message
    [movingActionMap] (moving_dynamic_gestures_calculator.proto) is not part
    of the sources. The armed slot is "the currently-armed ActionConfig (or
    none)": [None] is the message after [Clear()], for which
    [IsInitialized()] is false and every accessor reads its default, and
    [Some act] is a copy of a configured entry. *)
Record Calculator : Type := {
  currentAction : option movingActionMap;
  startingGesture : StartingGesture;
  mqttMessages : MqttMessages
}.

Definition IsInitialized (currentAction : option movingActionMap) : bool :=
  match currentAction with Some _ => true | None => false end.

(** [currentAction.start_action()] *)
Definition current_start_action (currentAction : option movingActionMap) : Z :=
  match currentAction with Some act => start_action act | None => 0 end.

Record Inputs : Type := {
  InputTimestamp : Timestamp;
  DETECTIONS : option Detections;
  NORM_LANDMARKS : option Landmarks;
  ANGLES : option Angles
}.

Record Outputs : Type := {
  MQTT_MESSAGE : list (Packet MqttMessages);
  FLAG : list (Packet bool)
}.

(** [clear(currentAction, startingGesture)] *)
Definition clear (c : Calculator) : Calculator :=
  {| currentAction := None; startingGesture := zero_StartingGesture;
     mqttMessages := mqttMessages c |}.

Definition getAngle (angleNumber lmId : Z) (angles : Angles) : Status Q :=
  a <- element_at angles lmId;;
  OkStatus (if angleNumber =? 1 then angle1 a else angle2 a).

Definition setStartingGesture (currentAction : movingActionMap)
    (startingGestureTime : Q) (landmarks : Landmarks) (angles : Angles)
    : Status StartingGesture :=
  a <- getAngle (angle_number currentAction) (landmark_id currentAction) angles;;
  lm <- element_at landmarks (landmark_id currentAction);;
  OkStatus {| starting_start_action := start_action currentAction;
              time := startingGestureTime; angle := a; lmInfo := lm |}.

(** The test [act_.start_action() == label_id] of the scan. *)
Definition starts_with (label : Z) (a : movingActionMap) : bool :=
  start_action a =? label.

(** The loop [for (auto act_ : options_.moving_actions_map())] of [Process]. *)
Fixpoint scan_actions (label : Z) (now : Q) (landmarks : Landmarks)
    (angles : Angles) (acts : list movingActionMap) (c : Calculator)
    : Status Calculator :=
  match acts with
  | [] => OkStatus c
  | act_ :: rest =>
      if start_action act_ =? label then
        sg <- setStartingGesture act_ now landmarks angles;;
        scan_actions label now landmarks angles rest
          {| currentAction := Some act_; startingGesture := sg;
             mqttMessages := mqttMessages c |}
      else scan_actions label now landmarks angles rest c
  end.

(** Truncation toward zero of a quotient. *)
Definition Qtrunc (q : Q) : Z := Z.quot (Qnum q) (Z.pos (Qden q)).

(** [(int)(movementDiff / threshold)]: a zero threshold gives an infinity
    or a NaN, whose conversion to [int] is undefined, as is that of a
    quotient outside the range of [int]. *)
Definition quotient_to_int (movementDiff threshold : Q) : Status Z :=
  if Qeq_bool threshold 0 then ErrStatus UndefinedBehaviour
  else as_int (Qtrunc (movementDiff / threshold)).

(** [movementDiff] in the [switch (currentAction.action_type())] of
    [Process]: baseline minus current, on the x coordinate of the landmark
    for a translation and on the selected angle for a rotation. *)
Definition movementDiff (act : movingActionMap) (sg : StartingGesture)
    (landmarks : Landmarks) (angles : Angles) : Status Q :=
  match action_type act with
  | TRASLATION =>
      lm <- element_at landmarks (landmark_id act);;
      OkStatus (x (lmInfo sg) - x lm)%Q
  | ROTATION =>
      a <- getAngle (angle_number act) (landmark_id act) angles;;
      OkStatus (angle sg - a)%Q
  end.

(** [numActions] at the end of the [switch]. *)
Definition count_actions (act : movingActionMap) (sg : StartingGesture)
    (landmarks : Landmarks) (angles : Angles) : Status Z :=
  diff <- movementDiff act sg landmarks angles;;
  quotient_to_int diff (action_threshold act).

(** [if (!auto_repeat && numActions) numActions = numActions / abs(numActions)] *)
Definition clamp_to_sign (act : movingActionMap) (numActions : Z) : Status Z :=
  if negb (auto_repeat act) && negb (numActions =? 0) then
    a <- int_abs numActions;;
    OkStatus (Z.quot numActions a)
  else OkStatus numActions.

(** [if (has_max_repeat() && numActions) ...] *)
Definition clamp_to_max (act : movingActionMap) (numActions : Z) : Status Z :=
  match max_repeat act with
  | Some bound =>
      if negb (numActions =? 0) then
        a <- int_abs numActions;;
        if a >? bound then
          if numActions >? 0 then OkStatus bound
          else as_int (bound * (-1))
        else OkStatus numActions
      else OkStatus numActions
  | None => OkStatus numActions
  end.

(** The messages appended by the loop [for (i = 1; i <= abs(numActions); i++)]. *)
Definition batch_of (act : movingActionMap) (numActions : Z) (n : Z)
    : MqttMessages :=
  repeat {| Formats.topic := topic act;
            Formats.payload := if numActions >? 0 then positive_payload act
                               else negative_payload act |}
         (Z.to_nat n).

(** The count of the specification: the quotient truncated toward zero,
    clamped to its sign without auto-repeat, its magnitude clamped to the
    bound when there is one. *)
Definition truncate_toward_zero (q : Q) : Z :=
  if Qle_bool 0 q then Qfloor q else Qceiling q.

Definition clamp_sign (auto_repeat : bool) (count : Z) : Z :=
  if auto_repeat then count else Z.sgn count.

Definition clamp_magnitude (max_repeat : option Z) (count : Z) : Z :=
  match max_repeat with
  | Some bound => Z.sgn count * Z.min (Z.abs count) bound
  | None => count
  end.

Definition specified_count (act : movingActionMap) (delta : Q) : Z :=
  clamp_magnitude (max_repeat act)
    (clamp_sign (auto_repeat act)
       (truncate_toward_zero (delta / action_threshold act))).


Section WithOptions.

Variable options_ : movingDynamicGesturesCalculatorOptions.

(** [Open], from the value-initialised members. *)
Definition Open : Status Calculator :=
  RET_CHECK (0 <=? Z.of_nat (length (moving_actions_map options_)))
            "You should at least provide one action map";;;
  OkStatus {| currentAction := None; startingGesture := zero_StartingGesture;
              mqttMessages := [] |}.

Definition required {A : Type} (stream : option A) : Status A :=
  match stream with
  | Some a => OkStatus a
  | None => ErrStatus (RetCheckFailure "")
  end.

Definition flag_packets (c : Calculator) (now : Timestamp) : list (Packet bool) :=
  if negb (IsInitialized (currentAction c))
  then [MakePacket true (NextAllowedInStream now)]
  else [].

(** The members between two frames: the batch is empty and the start id
    kept with the baseline is that of the armed action. *)
Definition consistent (c : Calculator) : Prop :=
  mqttMessages c = []
  /\ forall act, currentAction c = Some act ->
       starting_start_action (startingGesture c) = start_action act.

(** The block under the comment "execute action" of [Process], entered with
    the armed action [act]. *)
Definition execute (act : movingActionMap) (c : Calculator) (now : Timestamp)
    (landmarks : Landmarks) (angles : Angles)
    : Status (Calculator * list (Packet MqttMessages)) :=
  (* startingGesture.time = cc->InputTimestamp().Seconds() *)
  let sg := {| starting_start_action := starting_start_action (startingGesture c);
               time := Seconds now;
               angle := angle (startingGesture c);
               lmInfo := lmInfo (startingGesture c) |} in
  n0 <- count_actions act sg landmarks angles;;
  n1 <- clamp_to_sign act n0;;
  numActions <- clamp_to_max act n1;;
  n <- int_abs numActions;;
  let batch := mqttMessages c ++ batch_of act numActions n in
  if negb (n =? 0) then
    OkStatus ({| currentAction := None; startingGesture := zero_StartingGesture;
                 mqttMessages := [] |},
              [MakePacket batch (NextAllowedInStream now)])
  else
    OkStatus ({| currentAction := Some act; startingGesture := sg;
                 mqttMessages := batch |}, []).

(** The frame carries a detection labelled [label], the landmarks and the
    angles. *)
Definition carries (cc : Inputs) (label : Z) (landmarks : Landmarks)
    (angles : Angles) : Prop :=
  (exists input_detections,
      DETECTIONS cc = Some input_detections
      /\ back_label_id input_detections = OkStatus label)
  /\ NORM_LANDMARKS cc = Some landmarks
  /\ ANGLES cc = Some angles.

Definition Process (c : Calculator) (cc : Inputs)
    : Status (Calculator * Outputs) :=
  input_detections <- required (DETECTIONS cc);;
  label <- back_label_id input_detections;;
  landmarks <- required (NORM_LANDMARKS cc);;
  angles <- required (ANGLES cc);;
  let now := InputTimestamp cc in
  let c1 :=
    if negb (starting_start_action (startingGesture c)
             =? current_start_action (currentAction c))
    then clear c else c in
  r <-
    (if negb (IsInitialized (currentAction c1)) then
       c2 <- scan_actions label (Seconds now) landmarks angles
               (moving_actions_map options_) c1;;
       (* no gesture found *)
       OkStatus (if negb (IsInitialized (currentAction c2)) then clear c2 else c2,
                 [])
     else
       (* TimeOut *)
       let c2 :=
         if Qge_bool (Seconds now - time (startingGesture c1))
                     (moving_time_out_s options_)
         then clear c1 else c1 in
       (* execute action *)
       match currentAction c2 with
       | Some act =>
           if Qge_bool (Seconds now - time (startingGesture c2))
                       (time_between_actions act)
           then execute act c2 now landmarks angles
           else OkStatus (c2, [])
       | None => OkStatus (c2, [])
       end);;
  let '(c3, sent) := r in
  OkStatus (c3, {| MQTT_MESSAGE := sent; FLAG := flag_packets c3 now |}).

End WithOptions.

End Moving.

(** ** gesture_classifier_calculator.cc *)

Module Classifier.

Definition transitionTag : string := "transition".
Definition movingTag : string := "moving".
Definition writingTag : string := "writing".
Definition fixedTag : string := "fixed".

(** Arithmetic on [unsigned int]: modulo 2^32. *)
Definition uint (n : Z) : Z := n mod 4294967296.

(** [str[h]] in an [unsigned int] expression: the [char] is promoted to
    [int] (sign-extended where [char] is signed) and converted. *)
Definition char_to_uint (c : ascii) : Z :=
  let b := Z.of_N (N_of_ascii c) in
  if b <? 128 then b else uint (b - 256).

(** [str2int(str, h)] on the characters of [str] from [h] on; the string
    ends at its first NUL character. *)
Fixpoint str2int (str : string) : Z :=
  match str with
  | EmptyString => 5381
  | String c rest =>
      if Ascii.eqb c Ascii.zero then 5381
      else Z.lxor (uint (str2int rest * 33)) (char_to_uint c)
  end.

(** [std::getline] until the stream is exhausted; [line] holds the
    characters of the current line read so far. *)
Fixpoint getlines (line : string) (stream : string) : list string :=
  match stream with
  | EmptyString => if String.eqb line "" then [] else [line]
  | String c rest =>
      if Ascii.eqb c "010"%char then line :: getlines "" rest
      else getlines (line +:+ String c "") rest
  end.

(** [gesture_map_[i++] = line] for the lines in order, from index [i]. *)
Fixpoint load_lines (i : Z) (lines : list string) (gesture_map_ : gmap Z string)
    : gmap Z string :=
  match lines with
  | [] => gesture_map_
  | line :: rest => load_lines (i + 1) rest (<[i := line]> gesture_map_)
  end.

Record Calculator : Type := {
  gesture_map_ : gmap Z string;
  disabled : bool
}.

(** [Open] on the contents of the file named by the options. *)
Definition Open (gesture_map_string : string) : Status Calculator :=
  OkStatus {| gesture_map_ := load_lines 0 (getlines "" gesture_map_string) ∅;
              disabled := false |}.

Record Inputs : Type := {
  InputTimestamp : Timestamp;
  DETECTIONS : option Detections
}.

Record Outputs : Type := {
  LATCH_TRANSITION : list (Packet bool);
  LATCH_MOVING : list (Packet bool);
  LATCH_WRITING : list (Packet bool);
  LATCH_FIXED : list (Packet bool);
  TBD : list (Packet bool)
}.

Definition no_outputs : Outputs :=
  {| LATCH_TRANSITION := []; LATCH_MOVING := []; LATCH_WRITING := [];
     LATCH_FIXED := []; TBD := [] |}.

(** [setLatches], followed by the packets [tbd] added to TBD. *)
Definition setLatches (transition moving writing fixed : bool)
    (now : Timestamp) (tbd : list (Packet bool)) : Outputs :=
  {| LATCH_TRANSITION := [MakePacket transition now];
     LATCH_MOVING := [MakePacket moving now];
     LATCH_WRITING := [MakePacket writing now];
     LATCH_FIXED := [MakePacket fixed now];
     TBD := tbd |}.

Definition Process (c : Calculator) (cc : Inputs) : Status (Calculator * Outputs) :=
  match DETECTIONS cc with
  | None => OkStatus (c, no_outputs)
  | Some input_detections =>
      label <- back_label_id input_detections;;
      let outLabel := default "" (gesture_map_ c !! label) in
      let now := InputTimestamp cc in
      let h := str2int outLabel in
      OkStatus (c,
        if h =? str2int transitionTag then setLatches true false false false now []
        else if h =? str2int movingTag then setLatches false true false false now []
        else if h =? str2int writingTag then setLatches false false true false now []
        else if h =? str2int fixedTag then setLatches false false false true now []
        else setLatches false false false false now
               [MakePacket true (NextAllowedInStream now)])
  end.

(** The character that ends a line. *)
Definition newline : ascii := "010"%char.

Fixpoint has_newline (line : string) : bool :=
  match line with
  | EmptyString => false
  | String c rest => Ascii.eqb c newline || has_newline rest
  end.

(** The contents of a file made of the given lines, each one ended by a
    newline character. *)
Fixpoint unlines (lines : list string) : string :=
  match lines with
  | [] => ""
  | line :: rest => line +:+ String newline (unlines rest)
  end.

(** The number of latches raised by the packets of a frame. *)
Definition raised (out : Outputs) : nat :=
  length (filter (fun p : Packet bool => value p)
            (LATCH_TRANSITION out ++ LATCH_MOVING out
             ++ LATCH_WRITING out ++ LATCH_FIXED out)).

End Classifier.

(** ** latch_calculator.cc *)

Module Latch.

Inductive LatchState : Type :=
| LATCH_UNINITIALIZED
| LATCH_ON
| LATCH_OFF.

Definition LatchState_eqb (a b : LatchState) : bool :=
  match a, b with
  | LATCH_UNINITIALIZED, LATCH_UNINITIALIZED => true
  | LATCH_ON, LATCH_ON => true
  | LATCH_OFF, LATCH_OFF => true
  | _, _ => false
  end.

(** The streams of the node: whether each tagged stream is declared, and
    the numbers of untagged data inputs and outputs. *)
Record Contract : Type := {
  has_LATCH : bool;
  has_RESET : bool;
  has_STATE_CHANGE : bool;
  data_inputs : Z;      (* [cc->Inputs().NumEntries("")] *)
  data_outputs : Z      (* [cc->Outputs().NumEntries("")] *)
}.

(** The private members. [latched] has no initializer and the constructor
    leaves it alone: [None] is the member before its first assignment,
    whose value cannot be read. *)
Record Calculator : Type := {
  last_latch_state_ : LatchState;
  num_data_streams_ : Z;
  latched : option bool
}.

Definition GetContract (contract : Contract) : Status unit :=
  RET_CHECK (has_LATCH contract) "";;;
  RET_CHECK (1 <=? data_inputs contract) "";;;
  RET_CHECK (data_outputs contract =? data_inputs contract)
    "Number of data output streams must match with data input streams.".

Section WithData.

(** The type of the packets of the data streams ([SetAny]). *)
Variable Data : Type.

Record Inputs : Type := {
  InputTimestamp : Timestamp;
  LATCH : option bool;                 (* [None]: no packet this frame *)
  RESET : option bool;
  data : list (option (Packet Data))   (* the untagged inputs, by index *)
}.

Record Outputs : Type := {
  STATE_CHANGE : list (Packet bool);
  data_out : list (list (Packet Data)) (* the untagged outputs, by index *)
}.

Variable contract : Contract.

(** [Open], from the constructed members. *)
Definition Open : Status Calculator :=
  OkStatus {| last_latch_state_ := LATCH_UNINITIALIZED;
              num_data_streams_ := data_inputs contract;
              latched := None |}.

(** The loop over the data streams of [Process], from index [i], for [n]
    more streams. *)
Fixpoint forward (n : nat) (i : Z) (inputs : list (option (Packet Data)))
    : Status (list (list (Packet Data))) :=
  match n with
  | O => OkStatus []
  | S n' =>
      input <- element_at inputs i;;
      rest <- forward n' (i + 1) inputs;;
      OkStatus (match input with
                | Some packet => [packet]
                | None => []
                end :: rest)
  end.

Definition Process (c : Calculator) (cc : Inputs)
    : Status (Calculator * Outputs) :=
  let after_latch :=
    match LATCH cc with
    | Some b => if has_LATCH contract then Some b else latched c
    | None => latched c
    end in
  let after_reset :=
    match RESET cc with
    | Some r => if has_RESET contract then Some (negb r) else after_latch
    | None => after_latch
    end in
  match after_reset with
  | None => ErrStatus UndefinedBehaviour
  | Some now_latched =>
      let new_latch_state := if now_latched then LATCH_ON else LATCH_OFF in
      let state_change :=
        if has_STATE_CHANGE contract
           && negb (LatchState_eqb (last_latch_state_ c) LATCH_UNINITIALIZED)
           && negb (LatchState_eqb (last_latch_state_ c) new_latch_state)
        then [MakePacket now_latched (InputTimestamp cc)]
        else [] in
      let c' := {| last_latch_state_ := new_latch_state;
                   num_data_streams_ := num_data_streams_ c;
                   latched := Some now_latched |} in
      if negb now_latched then
        OkStatus (c', {| STATE_CHANGE := state_change;
                         data_out := repeat [] (Z.to_nat (num_data_streams_ c)) |})
      else
        forwarded <- forward (Z.to_nat (num_data_streams_ c)) 0 (data cc);;
        OkStatus (c', {| STATE_CHANGE := state_change; data_out := forwarded |})
  end.

(** [Process] over the frames of a stream; the run ends at the first
    error. *)
Fixpoint run (c : Calculator) (frames : list Inputs)
    : Status (Calculator * list Outputs) :=
  match frames with
  | [] => OkStatus (c, [])
  | cc :: rest =>
      r <- Process c cc;;
      let '(c1, out) := r in
      r' <- run c1 rest;;
      let '(c2, outs) := r' in
      OkStatus (c2, out :: outs)
  end.

(** The members after a first frame: the recorded state is that of the
    latch. *)
Definition settled (c : Calculator) (b : bool) : Prop :=
  latched c = Some b
  /\ last_latch_state_ c = (if b then LATCH_ON else LATCH_OFF).

(** A frame that carries neither a LATCH nor a RESET packet, and one entry
    for each data stream. *)
Definition quiet (c : Calculator) (cc : Inputs) : Prop :=
  LATCH cc = None /\ RESET cc = None
  /\ Z.of_nat (length (data cc)) = num_data_streams_ c.

(** The packets present on the data inputs, stream by stream. *)
Definition present (inputs : list (option (Packet Data)))
    : list (list (Packet Data)) :=
  map (fun input => match input with Some packet => [packet] | None => [] end)
      inputs.

End WithData.

End Latch.

(** ** Configurations and frames used as concrete inputs *)

Module Examples.

Definition message (payload : string) : Mqtt_Message :=
  {| topic := "handCommander/tv/ir_command"; payload := payload |}.

Definition detection (label : Z) : option Detections :=
  Some [{| label_id := [label] |}].

(** The two pairs of the example configuration of the source. *)
Definition transition_pair_first : Transition.transitionActionMap :=
  {| Transition.start_action := 0; Transition.end_action := 2;
     Transition.mqtt_message := message "KEY_POWER" |}.

Definition transition_pair_back : Transition.transitionActionMap :=
  {| Transition.start_action := 2; Transition.end_action := 0;
     Transition.mqtt_message := message "KEY_POWER" |}.

(** A second pair on the start gesture of the first. *)
Definition transition_pair_second : Transition.transitionActionMap :=
  {| Transition.start_action := 0; Transition.end_action := 3;
     Transition.mqtt_message := message "KEY_MUTE" |}.

Definition transition_options : Transition.transitionDynamicGesturesCalculatorOptions :=
  {| Transition.time_out_s := 1.5%Q;
     Transition.actions_map := [transition_pair_first; transition_pair_back] |}.

Definition transition_options_twice
    : Transition.transitionDynamicGesturesCalculatorOptions :=
  {| Transition.time_out_s := 1.5%Q;
     Transition.actions_map := [transition_pair_first; transition_pair_second] |}.

(** The members after [Open]. *)
Definition transition_opened
    (options_ : Transition.transitionDynamicGesturesCalculatorOptions)
    : Transition.Calculator :=
  {| Transition.currentAction := Transition.zero_actions;
     Transition.startingGestureTime := 0%Q;
     Transition.actionsMap :=
       map Transition.loadAct (Transition.actions_map options_);
     Transition.mqttMessages := [] |}.

Definition transition_frame (now : Timestamp) (label : Z) : Transition.Inputs :=
  {| Transition.InputTimestamp := now; Transition.DETECTIONS := detection label |}.

(** Armed at t = 0 on the pair 0 -> 2: the members after [Open] and a frame
    labelled 0. *)
Definition transition_armed : Transition.Calculator :=
  {| Transition.currentAction := Transition.loadAct transition_pair_first;
     Transition.startingGestureTime := Seconds 0;
     Transition.actionsMap :=
       map Transition.loadAct (Transition.actions_map transition_options);
     Transition.mqttMessages := [] |}.

(** The two moving actions of the example configuration of the source, and
    a second action on gesture 6. *)
Definition moving_rotation : Moving.movingActionMap :=
  {| Moving.start_action := 6; Moving.action_type := Moving.ROTATION;
     Moving.landmark_id := 0; Moving.angle_number := 1;
     Moving.action_threshold := 0.1%Q; Moving.time_between_actions := 0.5%Q;
     Moving.auto_repeat := true; Moving.max_repeat := Some 5;
     Moving.topic := "handCommander/tv/ir_command";
     Moving.positive_payload := "KEY_VOLUMEUP";
     Moving.negative_payload := "KEY_VOLUMEDOWN" |}.

Definition moving_traslation : Moving.movingActionMap :=
  {| Moving.start_action := 4; Moving.action_type := Moving.TRASLATION;
     Moving.landmark_id := 0; Moving.angle_number := 0;
     Moving.action_threshold := 0.1%Q; Moving.time_between_actions := 0.5%Q;
     Moving.auto_repeat := false; Moving.max_repeat := None;
     Moving.topic := "handCommander/tv/ir_command";
     Moving.positive_payload := "KEY_CHANNELUP";
     Moving.negative_payload := "KEY_CHANNELDOWN" |}.

Definition moving_rotation_second : Moving.movingActionMap :=
  {| Moving.start_action := 6; Moving.action_type := Moving.ROTATION;
     Moving.landmark_id := 0; Moving.angle_number := 2;
     Moving.action_threshold := 0.2%Q; Moving.time_between_actions := 0.5%Q;
     Moving.auto_repeat := true; Moving.max_repeat := None;
     Moving.topic := "handCommander/tv/ir_command";
     Moving.positive_payload := "KEY_UP";
     Moving.negative_payload := "KEY_DOWN" |}.

Definition moving_options : Moving.movingDynamicGesturesCalculatorOptions :=
  {| Moving.moving_time_out_s := 1.5%Q;
     Moving.moving_actions_map := [moving_rotation; moving_traslation] |}.

Definition moving_options_twice : Moving.movingDynamicGesturesCalculatorOptions :=
  {| Moving.moving_time_out_s := 1.5%Q;
     Moving.moving_actions_map :=
       [moving_rotation; moving_traslation; moving_rotation_second] |}.

Definition moving_opened : Moving.Calculator :=
  {| Moving.currentAction := None;
     Moving.startingGesture := Moving.zero_StartingGesture;
     Moving.mqttMessages := [] |}.

Definition moving_frame (now : Timestamp) (label : Z) (x0 a1 : Q) : Moving.Inputs :=
  {| Moving.InputTimestamp := now;
     Moving.DETECTIONS := detection label;
     Moving.NORM_LANDMARKS := Some [{| x := x0; y := 0%Q; z := 0%Q |}];
     Moving.ANGLES := Some [{| angle1 := a1; angle2 := 0%Q |}] |}.

(** Armed at t = 0 on the rotation of gesture 6, baseline angle 0.5. *)
Definition moving_armed : Moving.Calculator :=
  {| Moving.currentAction := Some moving_rotation;
     Moving.startingGesture :=
       {| Moving.starting_start_action := 6; Moving.time := Seconds 0;
          Moving.angle := 0.5%Q;
          Moving.lmInfo := {| x := 0.5%Q; y := 0%Q; z := 0%Q |} |};
     Moving.mqttMessages := [] |}.

(** Fixed actions: a plain key, a second plain key on the same gesture,
    and an action modulated by the angle windows of the specification. *)
Definition fixed_mute : Fixed.fixedActionMap :=
  {| Fixed.start_action := 1; Fixed.landmark_id := None;
     Fixed.angle_number := None; Fixed.angle_limits := [];
     Fixed.time_between_actions := 1%Q; Fixed.auto_repeat := true;
     Fixed.mqtt_message := [message "KEY_MUTE"] |}.

Definition fixed_power : Fixed.fixedActionMap :=
  {| Fixed.start_action := 1; Fixed.landmark_id := None;
     Fixed.angle_number := None; Fixed.angle_limits := [];
     Fixed.time_between_actions := 1%Q; Fixed.auto_repeat := true;
     Fixed.mqtt_message := [message "KEY_POWER"] |}.

Definition fixed_windows : Fixed.fixedActionMap :=
  {| Fixed.start_action := 3; Fixed.landmark_id := Some 0;
     Fixed.angle_number := Some 1;
     Fixed.angle_limits :=
       [{| Fixed.angle_limit_pos := (-0.8)%Q; Fixed.angle_limit_neg := (-1.4)%Q |};
        {| Fixed.angle_limit_pos := 0.85%Q; Fixed.angle_limit_neg := 0.35%Q |}];
     Fixed.time_between_actions := 1%Q; Fixed.auto_repeat := true;
     Fixed.mqtt_message := [message "DOWN"; message "UP"] |}.

(** An angle selector with two windows and a single payload entry. *)
Definition fixed_mismatched : Fixed.fixedActionMap :=
  {| Fixed.start_action := 3; Fixed.landmark_id := Some 0;
     Fixed.angle_number := Some 1;
     Fixed.angle_limits :=
       [{| Fixed.angle_limit_pos := (-0.8)%Q; Fixed.angle_limit_neg := (-1.4)%Q |};
        {| Fixed.angle_limit_pos := 0.85%Q; Fixed.angle_limit_neg := 0.35%Q |}];
     Fixed.time_between_actions := 1%Q; Fixed.auto_repeat := true;
     Fixed.mqtt_message := [message "DOWN"] |}.

Definition fixed_options (acts : list Fixed.fixedActionMap)
    : Fixed.fixedDynamicGesturesCalculatorOptions :=
  {| Fixed.fixed_time_out_s := 1.5%Q; Fixed.fixed_actions_map := acts |}.

Definition fixed_opened : Fixed.Calculator :=
  {| Fixed.currentAction := None; Fixed.lastGesture := Fixed.zero_LastGesture;
     Fixed.mqttMessages := [] |}.

Definition fixed_frame (now : Timestamp) (label : Z) (a1 : Q) : Fixed.Inputs :=
  {| Fixed.InputTimestamp := now;
     Fixed.DETECTIONS := detection label;
     Fixed.NORM_LANDMARKS := Some [{| x := 0%Q; y := 0%Q; z := 0%Q |}];
     Fixed.ANGLES := Some [{| angle1 := a1; angle2 := 0%Q |}] |}.


Definition classifier_frame (now : Timestamp) (label : Z) : Classifier.Inputs :=
  {| Classifier.InputTimestamp := now; Classifier.DETECTIONS := detection label |}.


(** The members after the action [act] has fired at the time [now]. *)
Definition fixed_fired (act : Fixed.fixedActionMap) (now : Timestamp)
    : Fixed.Calculator :=
  {| Fixed.currentAction := None;
     Fixed.lastGesture := Fixed.setLastGesture act (Seconds now);
     Fixed.mqttMessages := [] |}.

(** A table of two lines. *)
Definition classifier_lines : list string := ["transition"; "moving"].

(** The node of the example configuration of latch_calculator.cc, with two
    data streams. *)
Definition latch_contract : Latch.Contract :=
  {| Latch.has_LATCH := true; Latch.has_RESET := true;
     Latch.has_STATE_CHANGE := true;
     Latch.data_inputs := 2; Latch.data_outputs := 2 |}.

(** A frame with a packet on the first data stream and none on the second. *)
Definition latch_frame (now : Timestamp) (latch reset : option bool)
    : Latch.Inputs Z :=
  {| Latch.InputTimestamp := now; Latch.LATCH := latch; Latch.RESET := reset;
     Latch.data := [Some (MakePacket 7 now); None] |}.

(** The members after a first frame that sets the latch to [b]. *)
Definition latch_settled (b : bool) : Latch.Calculator :=
  {| Latch.last_latch_state_ := if b then Latch.LATCH_ON else Latch.LATCH_OFF;
     Latch.num_data_streams_ := 2;
     Latch.latched := Some b |}.

End Examples.

(** * Properties *)

(** ** Shared facts *)

Lemma find_last_app {A : Type} (p : A -> bool) (l : list A) (a : A) :
  find_last p (l ++ [a]) = if p a then Some a else find_last p l.
Proof.
  unfold find_last. rewrite rev_app_distr. reflexivity.
Qed.

Lemma find_append {A : Type} (p : A -> bool) (l1 l2 : list A) :
  find p (l1 ++ l2) =
  match find p l1 with Some b => Some b | None => find p l2 end.
Proof.
  induction l1 as [|a l1 IH]; simpl; [reflexivity|].
  destruct (p a); [reflexivity | exact IH].
Qed.

Lemma find_last_cons {A : Type} (p : A -> bool) (a : A) (l : list A) :
  find_last p (a :: l) =
  match find_last p l with
  | Some b => Some b
  | None => if p a then Some a else None
  end.
Proof.
  unfold find_last. simpl. rewrite find_append. simpl.
  destruct (find p (rev l)); reflexivity.
Qed.

Lemma find_last_Some {A : Type} (p : A -> bool) (l : list A) (a : A) :
  find_last p l = Some a -> In a l /\ p a = true.
Proof.
  unfold find_last. intros H. apply find_some in H.
  destruct H as [H1 H2]. split; [apply in_rev, H1 | exact H2].
Qed.

Lemma find_last_None {A : Type} (p : A -> bool) (l : list A) :
  find_last p l = None -> forall a, In a l -> p a = false.
Proof.
  unfold find_last. intros H a Ha.
  apply (find_none _ _ H). apply in_rev in Ha. exact Ha.
Qed.

Lemma Qge_bool_true (a b : Q) : Qge_bool a b = true <-> (b <= a)%Q.
Proof. unfold Qge_bool. apply Qle_bool_iff. Qed.

Lemma Qge_bool_false (a b : Q) : Qge_bool a b = false <-> ~ (b <= a)%Q.
Proof.
  unfold Qge_bool. rewrite <- Qle_bool_iff.
  destruct (Qle_bool b a); split; intros; congruence.
Qed.

(** ** The transition engine *)

Module TransitionFacts.
Import Transition.



Lemma transition_scan_last (label : Z) (t : Q) (acts : list _actions)
    (c : Calculator) :
  scan_actions label t acts c =
  match find_last (starts_with label) acts with
  | Some a => set_armed c a t
  | None => c
  end.
Proof.
  revert c. induction acts as [|a rest IH]; intros c; [reflexivity|].
  cbn [scan_actions]. rewrite IH, find_last_cons. unfold starts_with.
  destruct (find_last _ rest) as [b|];
    destruct (startAction a =? label); reflexivity.
Qed.

Lemma loaded_notEmpty (maps : list transitionActionMap) (a : _actions) :
  In a (map loadAct maps) -> notEmpty a = true.
Proof.
  intros H. apply in_map_iff in H. destruct H as [m [<- _]]. reflexivity.
Qed.

(** An unarmed transition engine arms on the last entry whose start id is
    the label, and stays unarmed when there is none. *)
Lemma transition_idle_frame
    (options_ : transitionDynamicGesturesCalculatorOptions)
    (c : Calculator) (cc : Inputs) (input_detections : Detections) (label : Z) :
  notEmpty (currentAction c) = false ->
  (forall a, In a (actionsMap c) -> notEmpty a = true) ->
  DETECTIONS cc = Some input_detections ->
  back_label_id input_detections = OkStatus label ->
  Process options_ c cc =
  OkStatus
    match find_last (starts_with label) (actionsMap c) with
    | Some a => (set_armed c a (Seconds (InputTimestamp cc)),
                 {| MQTT_MESSAGE := []; FLAG := [] |})
    | None => (clear c,
               {| MQTT_MESSAGE := [];
                  FLAG := [MakePacket true
                             (NextAllowedInStream (InputTimestamp cc))] |})
    end.
Proof.
  intros Hidle Hloaded Hdet Hlabel.
  unfold Process. rewrite Hdet, Hlabel. cbn [bind]. rewrite Hidle. cbn [negb].
  rewrite transition_scan_last.
  destruct (find_last (starts_with label) (actionsMap c)) as [a|] eqn:Hfind.
  - apply find_last_Some in Hfind. destruct Hfind as [Hin _].
    apply Hloaded in Hin. cbn [set_armed currentAction]. rewrite Hin.
    cbn [negb]. unfold flag_packets. cbn [set_armed currentAction].
    rewrite Hin. reflexivity.
  - rewrite Hidle. reflexivity.
Qed.

(** *** The members between two frames *)

Lemma transition_Open_consistent
    (options_ : transitionDynamicGesturesCalculatorOptions) (c : Calculator) :
  Open options_ = OkStatus c -> consistent options_ c.
Proof.
  unfold Open, RET_CHECK. destruct (0 <=? _); [|discriminate].
  cbn [bind]. intros H; inversion H; subst. split; reflexivity.
Qed.

Lemma transition_Process_consistent
    (options_ : transitionDynamicGesturesCalculatorOptions)
    (c c' : Calculator) (cc : Inputs) (out : Outputs) :
  consistent options_ c ->
  Process options_ c cc = OkStatus (c', out) ->
  consistent options_ c'.
Proof.
  intros [Htable Hbatch] Hprocess. unfold Process in Hprocess.
  destruct (DETECTIONS cc) as [dets|];
    [|inversion Hprocess; subst; split; assumption].
  destruct (back_label_id dets) as [label|e]; [|discriminate].
  cbn [bind] in Hprocess.
  destruct (notEmpty (currentAction c)); cbn [negb] in Hprocess.
  - destruct (Qge_bool _ (time_out_s options_));
      destruct (notEmpty _ && _);
      inversion Hprocess; subst; split; cbn; auto.
  - rewrite transition_scan_last in Hprocess.
    destruct (find_last (starts_with label) (actionsMap c)) as [a|];
      [destruct (negb (notEmpty (currentAction (set_armed c a _))))|
       destruct (negb (notEmpty (currentAction c)))];
      inversion Hprocess; subst; split; cbn; assumption.
Qed.

(** The armed members of the example are those reached from [Open] by a
    frame labelled 0 at t = 0. *)
Lemma transition_armed_reached :
  Open Examples.transition_options
  = OkStatus (Examples.transition_opened Examples.transition_options)
  /\ Process Examples.transition_options
       (Examples.transition_opened Examples.transition_options)
       (Examples.transition_frame 0 0)
     = OkStatus (Examples.transition_armed,
                 {| MQTT_MESSAGE := []; FLAG := [] |}).
Proof. split; reflexivity. Qed.

End TransitionFacts.

(** ** The fixed engine *)

Module FixedFacts.
Import Fixed.

Lemma copy_message (m : Mqtt_Message) :
  {| topic := topic m; payload := payload m |} = m.
Proof. destruct m; reflexivity. Qed.

Lemma in_window_true (a : Q) (lim : angleLimits) :
  in_window a lim = true <-> contains lim a.
Proof.
  unfold in_window, contains. rewrite andb_true_iff, Qge_bool_true, Qle_bool_iff.
  tauto.
Qed.

Lemma in_window_false (a : Q) (lim : angleLimits) :
  in_window a lim = false <-> ~ contains lim a.
Proof.
  rewrite <- in_window_true. destruct (in_window a lim); split; congruence.
Qed.

Lemma element_at_nth {A : Type} (v : list A) (i : nat) (a : A) :
  element_at v (Z.of_nat i) = OkStatus a <-> nth_error v i = Some a.
Proof.
  unfold element_at.
  destruct (Z.ltb_spec (Z.of_nat i) 0) as [Hneg|_]; [lia|].
  rewrite Nat2Z.id. destruct (nth_error v i); split; congruence.
Qed.

(** What the loop over the windows leaves in [currCommand]. *)
Lemma scan_windows_result (a : Q) (messages : list Mqtt_Message)
    (limits : list angleLimits) :
  forall (i : nat) (cmd r : Mqtt_Message),
    scan_windows a messages i limits cmd = OkStatus r ->
    (r = cmd /\ forall k lim, nth_error limits k = Some lim -> ~ contains lim a)
    \/ (exists k lim m,
          nth_error limits k = Some lim /\ contains lim a
          /\ nth_error messages (i + k) = Some m /\ r = m
          /\ forall j lim', (k < j)%nat ->
               nth_error limits j = Some lim' -> ~ contains lim' a).
Proof.
  induction limits as [|lim rest IH]; intros i cmd r Hscan.
  - left. inversion Hscan. split; [reflexivity|].
    intros k lim Hk. destruct k; discriminate.
  - cbn [scan_windows] in Hscan.
    destruct (in_window a lim) eqn:Hin.
    + destruct (element_at messages (Z.of_nat i)) as [m|e] eqn:Hm;
        [|discriminate].
      cbn [bind] in Hscan. rewrite copy_message in Hscan.
      apply element_at_nth in Hm.
      destruct (IH _ _ _ Hscan) as [[Hr Hnone]|[k [lim' [m' [Hk [Hc [Hm' [Hr Hlast]]]]]]]].
      * right. exists 0%nat, lim, m. rewrite Nat.add_0_r.
        split; [reflexivity|]. split; [apply in_window_true, Hin|].
        split; [exact Hm|]. split; [exact Hr|].
        intros j lim' Hj Hnth. destruct j; [lia|]. apply (Hnone j lim' Hnth).
      * right. exists (S k), lim', m'.
        replace (i + S k)%nat with (S i + k)%nat by lia.
        split; [exact Hk|]. split; [exact Hc|].
        split; [exact Hm'|]. split; [exact Hr|].
        intros j lim'' Hj Hnth. destruct j; [lia|].
        apply (Hlast j lim''); [lia | exact Hnth].
    + destruct (IH _ _ _ Hscan) as [[Hr Hnone]|[k [lim' [m' [Hk [Hc [Hm' [Hr Hlast]]]]]]]].
      * left. split; [exact Hr|].
        intros k lim' Hk. destruct k.
        -- inversion Hk; subst. apply in_window_false, Hin.
        -- apply (Hnone k lim' Hk).
      * right. exists (S k), lim', m'.
        replace (i + S k)%nat with (S i + k)%nat by lia.
        split; [exact Hk|]. split; [exact Hc|].
        split; [exact Hm'|]. split; [exact Hr|].
        intros j lim'' Hj Hnth. destruct j; [lia|].
        apply (Hlast j lim''); [lia | exact Hnth].
Qed.

(** With a payload entry for every window the loop reads within range. *)
Lemma scan_windows_total (a : Q) (messages : list Mqtt_Message)
    (limits : list angleLimits) :
  forall (i : nat) (cmd : Mqtt_Message),
    (i + length limits <= length messages)%nat ->
    exists r, scan_windows a messages i limits cmd = OkStatus r.
Proof.
  induction limits as [|lim rest IH]; intros i cmd Hlen.
  - exists cmd. reflexivity.
  - cbn [scan_windows]. cbn [length] in Hlen.
    destruct (in_window a lim).
    + destruct (nth_error messages i) as [m|] eqn:Hm.
      * apply element_at_nth in Hm. rewrite Hm. cbn [bind]. apply IH. lia.
      * apply nth_error_None in Hm. lia.
    + apply IH. lia.
Qed.

Lemma last_window_unique (act : fixedActionMap) (a : Q) (k k' : nat) :
  last_window act a k -> last_window act a k' -> k = k'.
Proof.
  intros [[lim [Hk Hc]] Hlast] [[lim' [Hk' Hc']] Hlast'].
  destruct (Nat.lt_trichotomy k k') as [Hlt|[Heq|Hgt]]; [|exact Heq|].
  - exfalso. apply (Hlast k' lim' Hlt Hk' Hc').
  - exfalso. apply (Hlast' k lim Hgt Hk Hc).
Qed.

(** The command left by the selection of [executeAction] for an action
    with an angle precondition: the payload entry of the last window that
    contains the angle, or the initial command when no window does. *)
Lemma select_command_windows (act : fixedActionMap) (angles : Angles)
    (lmId : Z) (a : Q) :
  landmark_id act = Some lmId ->
  getAngle (default 0 (angle_number act)) lmId angles = OkStatus a ->
  length (angle_limits act) = length (mqtt_message act) ->
  exists r, select_command act angles = OkStatus r
    /\ ((r = {| topic := "empty"; payload := "" |}
         /\ forall k, ~ last_window act a k)
        \/ exists k, last_window act a k
             /\ nth_error (mqtt_message act) k = Some r).
Proof.
  intros Hlm Hangle Hlen. unfold select_command. rewrite Hlm, Hangle.
  cbn [bind].
  destruct (scan_windows_total a (mqtt_message act) (angle_limits act) 0
              {| topic := "empty"; payload := "" |}) as [r Hr];
    [rewrite Hlen; cbn; lia|].
  exists r. split; [exact Hr|].
  destruct (scan_windows_result _ _ _ _ _ _ Hr)
    as [[Heq Hnone]|[k [lim [m [Hk [Hc [Hm [Heq Hlast]]]]]]]].
  - left. split; [exact Heq|].
    intros k [[lim [Hk Hc]] _]. apply (Hnone k lim Hk Hc).
  - right. exists k. subst r. split; [|exact Hm].
    split; [exists lim; split; assumption | exact Hlast].
Qed.

(** C7. A firing evaluation of an action with angle windows sends the
    payload entry of the last window, in configuration order, whose
    inclusive bounds contain the selected angle: whatever is sent is that
    entry, and that entry is sent unless its topic is the reserved word
    "empty". With the windows (-1.4,-0.8) -> DOWN and (0.35,0.85) -> UP the
    angle 0.5 sends UP and the angle -1.0 sends DOWN. *)
Theorem fixed_last_window_wins :
  (forall (act : fixedActionMap) (c : Calculator) (GestureTime : Q)
          (angles : Angles) (now : Timestamp) (lmId : Z) (a : Q),
      landmark_id act = Some lmId ->
      getAngle (default 0 (angle_number act)) lmId angles = OkStatus a ->
      length (angle_limits act) = length (mqtt_message act) ->
      mqttMessages c = [] ->
      exists c' sent,
        executeAction act c GestureTime angles now = OkStatus (c', sent)
        /\ (sent = []
            \/ exists k m, last_window act a k
                 /\ nth_error (mqtt_message act) k = Some m
                 /\ sent = [MakePacket [m] (NextAllowedInStream now)])
        /\ (forall k m, last_window act a k ->
              nth_error (mqtt_message act) k = Some m ->
              topic m <> "empty" ->
              sent = [MakePacket [m] (NextAllowedInStream now)]))
  /\ (exists c',
        executeAction Examples.fixed_windows Examples.fixed_opened (Seconds 0)
          [{| angle1 := 0.5%Q; angle2 := 0%Q |}] 0 =
        OkStatus (c', [MakePacket [Examples.message "UP"] 1]))
  /\ (exists c',
        executeAction Examples.fixed_windows Examples.fixed_opened (Seconds 0)
          [{| angle1 := (-1)%Q; angle2 := 0%Q |}] 0 =
        OkStatus (c', [MakePacket [Examples.message "DOWN"] 1])).
Proof.
  split; [|split; eexists; vm_compute; reflexivity].
  intros act c GestureTime angles now lmId a Hlm Hangle Hlen Hbatch.
  destruct (select_command_windows act angles lmId a Hlm Hangle Hlen)
    as [r [Hsel Hcases]].
  unfold executeAction. rewrite Hsel. cbn [bind]. rewrite Hbatch. cbn [app].
  destruct (String.eqb (topic r) "empty") eqn:Htopic; cbn [negb].
  - eexists _, _. split; [reflexivity|]. split; [left; reflexivity|].
    intros k m Hk Hm Hne. exfalso.
    apply String.eqb_eq in Htopic.
    destruct Hcases as [[_ Hnone]|[k' [Hk' Hm']]].
    + apply (Hnone k Hk).
    + rewrite (last_window_unique _ _ _ _ Hk Hk') in Hm.
      rewrite Hm' in Hm. inversion Hm; subst. contradiction.
  - eexists _, _. split; [reflexivity|].
    destruct Hcases as [[Heq _]|[k' [Hk' Hm']]].
    + subst r. discriminate.
    + split.
      * right. exists k', r.
        split; [exact Hk'|]. split; [exact Hm' | reflexivity].
      * intros k m Hk Hm _.
        rewrite (last_window_unique _ _ _ _ Hk Hk') in Hm.
        rewrite Hm' in Hm. inversion Hm; subst. reflexivity.
Qed.

(** *** The scan of the configured actions *)

Lemma check_action_error (act : fixedActionMap) (e : StatusError) :
  check_action act = ErrStatus e -> exists message, e = RetCheckFailure message.
Proof.
  unfold check_action, RET_CHECK.
  destruct (has_landmark_id act); [|discriminate].
  destruct (has_angle_number act); cbn [bind].
  - destruct (Nat.eqb _ _); [discriminate|].
    intros H; inversion H. eexists; reflexivity.
  - intros H; inversion H. eexists; reflexivity.
Qed.

Lemma check_action_mismatch (act : fixedActionMap) (lmId : Z) :
  landmark_id act = Some lmId ->
  length (angle_limits act) <> length (mqtt_message act) ->
  exists message, check_action act = ErrStatus (RetCheckFailure message).
Proof.
  intros Hlm Hlen. unfold check_action, has_landmark_id, RET_CHECK.
  rewrite Hlm. destruct (has_angle_number act); cbn [bind].
  - apply Nat.eqb_neq in Hlen. rewrite Hlen. eexists; reflexivity.
  - eexists; reflexivity.
Qed.

(** A scan that succeeds leaves the last entry whose start id is the label,
    whatever the slot held before. *)
Lemma scan_actions_ok (label : Z) (acts : list fixedActionMap) :
  forall cur r,
    scan_actions label acts cur = OkStatus r ->
    forall cur',
      scan_actions label acts cur' =
      OkStatus match find_last (starts_with label) acts with
               | Some a => Some a
               | None => cur'
               end.
Proof.
  induction acts as [|a rest IH]; intros cur r Hscan cur'; [reflexivity|].
  cbn [scan_actions] in *. rewrite find_last_cons. unfold starts_with at 2.
  destruct (start_action a =? label).
  - destruct (check_action a) as [[]|e]; [|discriminate]. cbn [bind] in *.
    rewrite (IH _ _ Hscan (Some a)).
    destruct (find_last (starts_with label) rest); reflexivity.
  - rewrite (IH _ _ Hscan cur').
    destruct (find_last (starts_with label) rest); reflexivity.
Qed.

Lemma fixed_scan_last (label : Z) (acts : list fixedActionMap)
    (cur : option fixedActionMap) :
  (forall a, In a acts -> start_action a = label ->
             check_action a = OkStatus tt) ->
  scan_actions label acts cur =
  OkStatus match find_last (starts_with label) acts with
           | Some a => Some a
           | None => cur
           end.
Proof.
  revert cur. induction acts as [|a rest IH]; intros cur Hchecks;
    [reflexivity|].
  cbn [scan_actions]. rewrite find_last_cons. unfold starts_with at 2.
  destruct (Z.eqb_spec (start_action a) label) as [Heq|Hne].
  - rewrite (Hchecks a (or_introl eq_refl) Heq). cbn [bind].
    rewrite IH by (intros b Hb; apply Hchecks; right; exact Hb).
    destruct (find_last (starts_with label) rest); reflexivity.
  - rewrite IH by (intros b Hb; apply Hchecks; right; exact Hb).
    destruct (find_last (starts_with label) rest); reflexivity.
Qed.

(** The scan stops with the error of a check as soon as an entry with the
    label as start id fails it. *)
Lemma scan_actions_error (label : Z) (acts : list fixedActionMap)
    (bad : fixedActionMap) :
  In bad acts -> start_action bad = label ->
  (exists message, check_action bad = ErrStatus (RetCheckFailure message)) ->
  forall cur, exists message,
    scan_actions label acts cur = ErrStatus (RetCheckFailure message).
Proof.
  intros Hin Hstart Hbad.
  induction acts as [|a rest IH]; intros cur; [contradiction|].
  cbn [scan_actions].
  destruct (Z.eqb_spec (start_action a) label) as [Heq|Hne].
  - destruct (check_action a) as [[]|e] eqn:Hcheck; cbn [bind].
    + destruct Hin as [->|Hin].
      * destruct Hbad as [message Hbad]. congruence.
      * apply (IH Hin).
    + destruct (check_action_error _ _ Hcheck) as [message ->].
      exists message. reflexivity.
  - destruct Hin as [->|Hin]; [contradiction|]. apply (IH Hin).
Qed.

Lemma scan_actions_found (label : Z) (acts : list fixedActionMap)
    (act : fixedActionMap) :
  scan_actions label acts None = OkStatus (Some act) ->
  start_action act = label /\ In act acts.
Proof.
  intros Hscan. pose proof (scan_actions_ok _ _ _ _ Hscan None) as Hlast.
  rewrite Hscan in Hlast. inversion Hlast as [Hfind].
  destruct (find_last (starts_with label) acts) as [a|] eqn:Hf;
    [|discriminate].
  inversion Hfind; subst a. apply find_last_Some in Hf.
  destruct Hf as [Hin Hp]. split; [apply Z.eqb_eq, Hp | exact Hin].
Qed.

(** *** One frame *)

Section Frame.

Variable options_ : fixedDynamicGesturesCalculatorOptions.

Lemma Process_carries (c : Calculator) (cc : Inputs) (label : Z)
    (landmarks : Landmarks) (angles : Angles) :
  carries cc label landmarks angles ->
  Process options_ c cc =
  (c1 <- arm options_ c label;;
   r <- evaluate options_ c1 (InputTimestamp cc) angles;;
   OkStatus (fst r, {| MQTT_MESSAGE := snd r;
                       FLAG := flag_packets (fst r) (InputTimestamp cc) |})).
Proof.
  intros [[dets [Hdet Hlabel]] [Hlm Hang]].
  unfold Process. rewrite Hdet, Hlm, Hang. cbn [required bind].
  rewrite Hlabel. cbn [bind].
  destruct (arm options_ c label) as [c1|e]; [|reflexivity]. cbn [bind].
  destruct (evaluate options_ c1 (InputTimestamp cc) angles) as [[c2 sent]|e];
    reflexivity.
Qed.

Lemma abort_keeps_unarmed (c : Calculator) (label : Z) :
  currentAction c = None ->
  currentAction (abort_on_label_change c label) = None.
Proof.
  intros H. unfold abort_on_label_change.
  destruct (_ && _); [reflexivity | exact H].
Qed.

Lemma abort_keeps_batch (c : Calculator) (label : Z) :
  mqttMessages (abort_on_label_change c label) = mqttMessages c.
Proof.
  unfold abort_on_label_change. destruct (_ && _); reflexivity.
Qed.

Lemma clear_abort (c : Calculator) (label : Z) :
  clear (abort_on_label_change c label) = clear c.
Proof.
  unfold abort_on_label_change. destruct (_ && _); reflexivity.
Qed.

(** An unarmed engine arms on the last entry whose start id is the label;
    without such an entry the members are cleared. *)
Lemma arm_unarmed (c : Calculator) (label : Z) :
  currentAction c = None ->
  (forall a, In a (fixed_actions_map options_) -> start_action a = label ->
             check_action a = OkStatus tt) ->
  arm options_ c label =
  OkStatus
    match find_last (starts_with label) (fixed_actions_map options_) with
    | Some act =>
        {| currentAction := Some act;
           lastGesture := lastGesture (abort_on_label_change c label);
           mqttMessages := mqttMessages c |}
    | None => clear c
    end.
Proof.
  intros Hidle Hchecks. unfold arm.
  rewrite (abort_keeps_unarmed c label Hidle). cbn [IsInitialized negb].
  rewrite (fixed_scan_last label _ None Hchecks). cbn [bind].
  destruct (find_last (starts_with label) (fixed_actions_map options_)).
  - rewrite abort_keeps_batch. reflexivity.
  - rewrite clear_abort. reflexivity.
Qed.

(** A frame whose label is the start id of no entry leaves the engine
    unarmed: nothing is sent but the flag. *)
Lemma fixed_unmatched_frame (c : Calculator) (cc : Inputs) (label : Z)
    (landmarks : Landmarks) (angles : Angles) :
  currentAction c = None ->
  carries cc label landmarks angles ->
  find_last (starts_with label) (fixed_actions_map options_) = None ->
  Process options_ c cc =
  OkStatus (clear c,
            {| MQTT_MESSAGE := [];
               FLAG := [MakePacket true
                          (NextAllowedInStream (InputTimestamp cc))] |}).
Proof.
  intros Hidle Hcc Hnone. rewrite (Process_carries c cc label landmarks angles Hcc).
  rewrite arm_unarmed; [|exact Hidle|].
  - rewrite Hnone. reflexivity.
  - intros a Hin Hstart. apply (find_last_None _ _ Hnone) in Hin.
    unfold starts_with in Hin. apply Z.eqb_neq in Hin. contradiction.
Qed.


(** A firing evaluation that selects a command sends it, records the
    firing in [lastGesture] and clears the stored action. *)
Lemma executeAction_sends (act : fixedActionMap) (c : Calculator)
    (GestureTime : Q) (angles : Angles) (now : Timestamp) (cmd : Mqtt_Message) :
  select_command act angles = OkStatus cmd ->
  topic cmd <> "empty" ->
  mqttMessages c = [] ->
  executeAction act c GestureTime angles now =
  OkStatus ({| currentAction := None;
               lastGesture := setLastGesture act GestureTime;
               mqttMessages := [] |},
            [MakePacket [cmd] (NextAllowedInStream now)]).
Proof.
  intros Hsel Htopic Hbatch. unfold executeAction. rewrite Hsel. cbn [bind].
  apply String.eqb_neq in Htopic. rewrite Htopic, Hbatch. reflexivity.
Qed.

(** Whatever it selects, the firing routine ends with the stored action
    cleared and the batch empty. *)
Lemma executeAction_clears (act : fixedActionMap) (c c' : Calculator)
    (GestureTime : Q) (angles : Angles) (now : Timestamp)
    (sent : list (Packet MqttMessages)) :
  executeAction act c GestureTime angles now = OkStatus (c', sent) ->
  currentAction c' = None /\ mqttMessages c' = []
  /\ (sent = [] \/ lastGesture c' = setLastGesture act GestureTime).
Proof.
  unfold executeAction.
  destruct (select_command act angles) as [cmd|e]; [|discriminate].
  cbn [bind]. destruct (negb _); intros H; inversion H; subst; cbn; auto.
Qed.




(** C6 (as amended). [Open] accepts every configuration. An entry with an
    angle selector whose windows and payload entries differ in number is
    rejected by [Process], on a frame that finds the engine unarmed and
    carries the start id of that entry: the frame returns the error of the
    check and sends nothing. *)
Theorem fixed_mismatch_raised_by_Process :
  (forall options' : fixedDynamicGesturesCalculatorOptions,
      Open options' =
      OkStatus {| currentAction := None; lastGesture := zero_LastGesture;
                  mqttMessages := [] |})
  /\ (forall (c : Calculator) (cc : Inputs) (label : Z)
             (landmarks : Landmarks) (angles : Angles)
             (bad : fixedActionMap) (lmId : Z),
         In bad (fixed_actions_map options_) ->
         landmark_id bad = Some lmId ->
         length (angle_limits bad) <> length (mqtt_message bad) ->
         currentAction c = None ->
         start_action bad = label ->
         carries cc label landmarks angles ->
         exists message,
           Process options_ c cc = ErrStatus (RetCheckFailure message)).
Proof.
  split.
  - intros options'. unfold Open, RET_CHECK.
    destruct (Z.leb_spec 0 (Z.of_nat (length (fixed_actions_map options'))));
      [reflexivity | lia].
  - intros c cc label landmarks angles bad lmId Hin Hlm Hlen Hidle Hstart Hcc.
    rewrite (Process_carries c cc label landmarks angles Hcc).
    unfold arm. rewrite (abort_keeps_unarmed c label Hidle).
    cbn [IsInitialized negb].
    destruct (scan_actions_error label (fixed_actions_map options_) bad Hin
                Hstart (check_action_mismatch bad lmId Hlm Hlen) None)
      as [message Hscan].
    rewrite Hscan. exists message. reflexivity.
Qed.

(** *** Repeated firing *)



(** *** The members between two frames *)

Lemma Open_consistent (c : Calculator) :
  Open options_ = OkStatus c -> consistent options_ c.
Proof.
  unfold Open, RET_CHECK. destruct (0 <=? _); [|discriminate].
  cbn [bind]. intros H; inversion H; subst. split; [reflexivity|].
  intros act Hact. discriminate.
Qed.

(** After the arming steps the batch is still empty and an armed action is
    the one the scan selects for the label of the frame. *)
Lemma arm_consistent (c c1 : Calculator) (label : Z) :
  consistent options_ c ->
  arm options_ c label = OkStatus c1 ->
  mqttMessages c1 = []
  /\ forall act, currentAction c1 = Some act ->
       scan_actions label (fixed_actions_map options_) None = OkStatus (Some act)
       /\ (notEmpty (lastGesture c1) = true ->
           last_start_action (lastGesture c1) = label).
Proof.
  intros [Hbatch Hinv] Harm. unfold arm, abort_on_label_change in Harm.
  destruct (notEmpty (lastGesture c)) eqn:Hfired; cbn [andb] in Harm.
  - destruct (Z.eqb_spec (last_start_action (lastGesture c)) label) as [Heq|Hne];
      cbn [negb] in Harm.
    + destruct (currentAction c) as [act0|] eqn:Hc;
        cbn [IsInitialized negb] in Harm.
      * inversion Harm; subst c1. split; [exact Hbatch|].
        intros act Hact. rewrite Hc in Hact. inversion Hact; subst act0.
        destruct (Hinv act eq_refl) as [_ Hscan]. rewrite Heq in Hscan. auto.
      * destruct (scan_actions label (fixed_actions_map options_) None)
          as [[found|]|e] eqn:Hscan; cbn [bind] in Harm; inversion Harm; subst c1;
          cbn; (split; [exact Hbatch|]); intros act Hact; inversion Hact; subst.
        auto.
    + cbn [clear currentAction IsInitialized negb] in Harm.
      destruct (scan_actions label (fixed_actions_map options_) None)
        as [[found|]|e] eqn:Hscan; cbn [bind] in Harm; inversion Harm; subst c1;
        cbn; (split; [exact Hbatch|]); intros act Hact; inversion Hact; subst.
      split; [reflexivity | discriminate].
  - destruct (currentAction c) as [act0|] eqn:Hc;
      cbn [IsInitialized negb] in Harm.
    + destruct (Hinv act0 eq_refl) as [Hcontra _]. congruence.
    + destruct (scan_actions label (fixed_actions_map options_) None)
        as [[found|]|e] eqn:Hscan; cbn [bind] in Harm; inversion Harm; subst c1;
        cbn; (split; [exact Hbatch|]); intros act Hact; inversion Hact; subst.
      split; [reflexivity | congruence].
Qed.

(** Arming again on the same label, from an unarmed engine. *)
Lemma arm_rescan (c : Calculator) (label : Z) (act : fixedActionMap) :
  currentAction c = None ->
  (notEmpty (lastGesture c) = true -> last_start_action (lastGesture c) = label) ->
  scan_actions label (fixed_actions_map options_) None = OkStatus (Some act) ->
  arm options_ c label =
  OkStatus {| currentAction := Some act; lastGesture := lastGesture c;
              mqttMessages := mqttMessages c |}.
Proof.
  intros Hidle Hsame Hscan. unfold arm, abort_on_label_change.
  destruct (notEmpty (lastGesture c)).
  - rewrite (Hsame eq_refl), Z.eqb_refl. cbn [andb negb].
    rewrite Hidle. cbn [IsInitialized negb]. rewrite Hscan. reflexivity.
  - cbn [andb]. rewrite Hidle. cbn [IsInitialized negb]. rewrite Hscan.
    reflexivity.
Qed.

(** [consistent] is kept by every frame. *)
Lemma Process_consistent (c c' : Calculator) (cc : Inputs) (out : Outputs) :
  consistent options_ c ->
  Process options_ c cc = OkStatus (c', out) ->
  consistent options_ c'.
Proof.
  intros Hinv Hprocess. unfold Process in Hprocess.
  destruct (required (DETECTIONS cc)) as [dets|e]; [|discriminate].
  cbn [bind] in Hprocess.
  destruct (back_label_id dets) as [label|e]; [|discriminate].
  cbn [bind] in Hprocess.
  destruct (required (NORM_LANDMARKS cc)) as [landmarks|e]; [|discriminate].
  cbn [bind] in Hprocess.
  destruct (required (ANGLES cc)) as [angles|e]; [|discriminate].
  cbn [bind] in Hprocess.
  destruct (arm options_ c label) as [c1|e] eqn:Harm; [|discriminate].
  cbn [bind] in Hprocess.
  destruct (arm_consistent c c1 label Hinv Harm) as [Hbatch1 Harmed].
  unfold evaluate in Hprocess.
  destruct (currentAction c1) as [act|] eqn:Hcur.
  - destruct (Harmed act eq_refl) as [Hscan Hsame].
    destruct (notEmpty (lastGesture c1)) eqn:Hfired; cbn [negb] in Hprocess.
    + destruct (auto_repeat act
                && Qge_bool (Seconds (InputTimestamp cc) - time (lastGesture c1))
                            (time_between_actions act)).
      * destruct (executeAction act c1 _ angles _) as [[c2 sent]|e] eqn:Hexec;
          [|discriminate].
        apply executeAction_clears in Hexec. destruct Hexec as [Hnone [Hb _]].
        cbn [bind] in Hprocess.
        destruct (Qge_bool _ (fixed_time_out_s options_));
          inversion Hprocess; subst; split; cbn; try assumption;
          intros a Ha; try discriminate. congruence.
      * cbn [bind] in Hprocess.
        destruct (Qge_bool _ (fixed_time_out_s options_));
          inversion Hprocess; subst; split; cbn; try assumption;
          intros a Ha; try discriminate.
        rewrite Hcur in Ha. inversion Ha; subst a.
        split; [exact Hfired|]. rewrite (Hsame eq_refl). exact Hscan.
    + destruct (executeAction act c1 _ angles _) as [[c2 sent]|e] eqn:Hexec;
        [|discriminate].
      apply executeAction_clears in Hexec. destruct Hexec as [Hnone [Hb _]].
      cbn [bind] in Hprocess.
      destruct (Qge_bool _ (fixed_time_out_s options_));
        inversion Hprocess; subst; split; cbn; try assumption;
        intros a Ha; try discriminate. congruence.
  - cbn [bind] in Hprocess. inversion Hprocess; subst.
    split; [exact Hbatch1|]. intros a Ha. congruence.
Qed.

(** C10. On a frame in which the fixed engine sends a command the stored
    action is cleared by the firing routine, so the frame ends unarmed and
    the unarmed flag is sent with the command although the gesture
    persists; on the next frame with the same label the scan of the
    configuration arms the engine again, on an entry for that label. *)
Theorem fixed_firing_clears_action (c c' : Calculator) (cc : Inputs)
    (label : Z) (landmarks : Landmarks) (angles : Angles) (out : Outputs) :
  consistent options_ c ->
  carries cc label landmarks angles ->
  Process options_ c cc = OkStatus (c', out) ->
  MQTT_MESSAGE out <> [] ->
  currentAction c' = None
  /\ FLAG out = [MakePacket true (NextAllowedInStream (InputTimestamp cc))]
  /\ exists act,
       start_action act = label
       /\ find_last (starts_with label) (fixed_actions_map options_) = Some act
       /\ arm options_ c' label =
          OkStatus {| currentAction := Some act; lastGesture := lastGesture c';
                      mqttMessages := mqttMessages c' |}.
Proof.
  intros Hinv Hcc Hprocess Hsent.
  rewrite (Process_carries c cc label landmarks angles Hcc) in Hprocess.
  destruct (arm options_ c label) as [c1|e] eqn:Harm; [|discriminate].
  cbn [bind] in Hprocess.
  destruct (arm_consistent c c1 label Hinv Harm) as [Hbatch1 Harmed].
  unfold evaluate in Hprocess.
  destruct (currentAction c1) as [act|] eqn:Hcur;
    [|cbn [bind fst snd] in Hprocess; inversion Hprocess; subst; contradiction].
  destruct (Harmed act eq_refl) as [Hscan _].
  destruct (scan_actions_found label _ act Hscan) as [Hstart _].
  assert (Hfind : find_last (starts_with label) (fixed_actions_map options_)
                  = Some act).
  { pose proof (scan_actions_ok _ _ _ _ Hscan None) as Hlast.
    rewrite Hscan in Hlast. inversion Hlast as [Hf].
    destruct (find_last (starts_with label) (fixed_actions_map options_));
      [congruence | discriminate]. }
  assert (Hfire : forall c2 sent,
    executeAction act c1 (Seconds (InputTimestamp cc)) angles (InputTimestamp cc)
      = OkStatus (c2, sent) ->
    (let c3 := if Qge_bool (Seconds (InputTimestamp cc) - time (lastGesture c2))
                           (fixed_time_out_s options_)
               then clear c2 else c2 in
     OkStatus (c3, {| MQTT_MESSAGE := sent;
                      FLAG := flag_packets c3 (InputTimestamp cc) |}))
      = OkStatus (c', out) ->
    currentAction c' = None
    /\ FLAG out = [MakePacket true (NextAllowedInStream (InputTimestamp cc))]
    /\ exists act0,
         start_action act0 = label
         /\ find_last (starts_with label) (fixed_actions_map options_) = Some act0
         /\ arm options_ c' label =
            OkStatus {| currentAction := Some act0; lastGesture := lastGesture c';
                        mqttMessages := mqttMessages c' |}).
  { intros c2 sent Hexec Hres.
    apply executeAction_clears in Hexec.
    destruct Hexec as [Hnone [Hb Hlast]]. cbn zeta in Hres.
    destruct (Qge_bool _ (fixed_time_out_s options_)); inversion Hres; subst.
    - split; [reflexivity|]. split; [reflexivity|]. exists act.
      split; [reflexivity|]. split; [exact Hfind|].
      apply arm_rescan; [reflexivity | discriminate | exact Hscan].
    - split; [exact Hnone|]. split; [unfold flag_packets; rewrite Hnone; reflexivity|].
      exists act. split; [reflexivity|]. split; [exact Hfind|].
      apply arm_rescan; [exact Hnone | | exact Hscan].
      intros _. destruct Hlast as [Hempty|Hlast];
        [cbn in Hsent; contradiction|].
      rewrite Hlast. reflexivity. }
  destruct (notEmpty (lastGesture c1)); cbn [negb] in Hprocess.
  - destruct (auto_repeat act
              && Qge_bool (Seconds (InputTimestamp cc) - time (lastGesture c1))
                          (time_between_actions act)).
    + destruct (executeAction act c1 _ angles _) as [[c2 sent]|e] eqn:Hexec;
        [|discriminate].
      cbn [bind fst snd] in Hprocess.
      apply (Hfire c2 sent eq_refl).
      destruct (Qge_bool _ (fixed_time_out_s options_)); exact Hprocess.
    + cbn [bind fst snd] in Hprocess.
      destruct (Qge_bool _ (fixed_time_out_s options_));
        inversion Hprocess; subst; contradiction.
  - destruct (executeAction act c1 _ angles _) as [[c2 sent]|e] eqn:Hexec;
      [|discriminate].
    cbn [bind fst snd] in Hprocess.
    apply (Hfire c2 sent eq_refl).
    destruct (Qge_bool _ (fixed_time_out_s options_)); exact Hprocess.
Qed.

End Frame.

End FixedFacts.

(** ** The moving engine *)

Module MovingFacts.
Import Moving.

(** *** The count of one evaluation *)











(** The quantization examples of the specification: a threshold of 0.1
    and a movement of 0.35 give 3; without auto-repeat the count is 1; a
    maximum of 2 brings 5 to 2 and -5 to -2. *)
Example quantization_examples :
  specified_count Examples.moving_rotation 0.35%Q = 3
  /\ specified_count Examples.moving_traslation 0.35%Q = 1
  /\ clamp_magnitude (Some 2) 5 = 2
  /\ clamp_magnitude (Some 2) (-5) = -2.
Proof. repeat split; vm_compute; reflexivity. Qed.

(** *** One frame *)

Section Frame.

Variable options_ : movingDynamicGesturesCalculatorOptions.



(** The scan leaves the last entry whose start id is the label, when the
    baseline of every such entry can be read. *)
Lemma moving_scan_last (label : Z) (now : Q) (landmarks : Landmarks)
    (angles : Angles) (acts : list movingActionMap) :
  (forall a, In a acts -> start_action a = label ->
             exists sg, setStartingGesture a now landmarks angles = OkStatus sg) ->
  forall c, exists c',
    scan_actions label now landmarks angles acts c = OkStatus c'
    /\ mqttMessages c' = mqttMessages c
    /\ match find_last (starts_with label) acts with
       | Some a =>
           currentAction c' = Some a
           /\ setStartingGesture a now landmarks angles
              = OkStatus (startingGesture c')
       | None => c' = c
       end.
Proof.
  induction acts as [|a rest IH]; intros Hread c.
  - exists c. repeat split; reflexivity.
  - cbn [scan_actions]. rewrite find_last_cons. unfold starts_with at 2.
    assert (Hrest : forall b, In b rest -> start_action b = label ->
              exists sg, setStartingGesture b now landmarks angles = OkStatus sg)
      by (intros b Hb; apply Hread; right; exact Hb).
    destruct (Z.eqb_spec (start_action a) label) as [Heq|Hne].
    + destruct (Hread a (or_introl eq_refl) Heq) as [sg Hsg].
      rewrite Hsg. cbn [bind].
      destruct (IH Hrest {| currentAction := Some a; startingGesture := sg;
                            mqttMessages := mqttMessages c |})
        as [c' [Hscan [Hb Hlast]]].
      exists c'. split; [exact Hscan|]. split; [exact Hb|].
      destruct (find_last (starts_with label) rest); [exact Hlast|].
      subst c'. cbn. auto.
    + destruct (IH Hrest c) as [c' [Hscan [Hb Hlast]]].
      exists c'. split; [exact Hscan|]. split; [exact Hb|].
      destruct (find_last (starts_with label) rest); exact Hlast.
Qed.

(** An unarmed moving engine arms on the last entry whose start id is the
    label, and stays unarmed when there is none. *)
Lemma moving_idle_frame (c : Calculator) (cc : Inputs) (label : Z)
    (landmarks : Landmarks) (angles : Angles) :
  currentAction c = None ->
  carries cc label landmarks angles ->
  (forall a, In a (moving_actions_map options_) -> start_action a = label ->
             exists sg, setStartingGesture a (Seconds (InputTimestamp cc))
                          landmarks angles = OkStatus sg) ->
  exists c',
    Process options_ c cc =
    OkStatus (c', {| MQTT_MESSAGE := [];
                     FLAG := flag_packets c' (InputTimestamp cc) |})
    /\ currentAction c' =
       find_last (starts_with label) (moving_actions_map options_).
Proof.
  intros Hidle [[dets [Hdet Hlabel]] [Hlm Hang]] Hread.
  unfold Process. rewrite Hdet, Hlm, Hang. cbn [required bind].
  rewrite Hlabel. cbn [bind].
  set (c1 := if negb (starting_start_action (startingGesture c)
                      =? current_start_action (currentAction c))
             then clear c else c).
  assert (Hidle1 : currentAction c1 = None)
    by (unfold c1; destruct (negb _); [reflexivity | exact Hidle]).
  rewrite Hidle1. cbn [IsInitialized negb].
  destruct (moving_scan_last label _ landmarks angles _ Hread c1)
    as [c2 [Hscan [_ Hlast]]].
  rewrite Hscan. cbn [bind].
  destruct (find_last (starts_with label) (moving_actions_map options_)) as [a|].
  - destruct Hlast as [Hcur _]. rewrite Hcur. cbn [IsInitialized negb].
    eexists. split; [reflexivity | exact Hcur].
  - subst c2. rewrite Hidle1. cbn [IsInitialized negb].
    eexists. split; reflexivity.
Qed.

(** *** The members between two frames *)

Lemma moving_Open_consistent (c : Calculator) :
  Open options_ = OkStatus c -> consistent c.
Proof.
  unfold Open, RET_CHECK. destruct (0 <=? _); [|discriminate].
  cbn [bind]. intros H; inversion H; subst. split; [reflexivity|].
  intros act Hact. discriminate.
Qed.

Lemma setStartingGesture_start (act : movingActionMap) (t : Q)
    (landmarks : Landmarks) (angles : Angles) (sg : StartingGesture) :
  setStartingGesture act t landmarks angles = OkStatus sg ->
  starting_start_action sg = start_action act.
Proof.
  unfold setStartingGesture.
  destruct (getAngle _ _ angles) as [a|e]; [|discriminate]. cbn [bind].
  destruct (element_at landmarks _) as [lm|e]; [|discriminate]. cbn [bind].
  intros H; inversion H; subst. reflexivity.
Qed.

Lemma scan_actions_consistent (label : Z) (t : Q) (landmarks : Landmarks)
    (angles : Angles) (acts : list movingActionMap) :
  forall c c',
    consistent c ->
    scan_actions label t landmarks angles acts c = OkStatus c' ->
    consistent c'.
Proof.
  induction acts as [|a rest IH]; intros c c' Hinv Hscan.
  - inversion Hscan; subst. exact Hinv.
  - cbn [scan_actions] in Hscan.
    destruct (start_action a =? label); [|apply (IH c c' Hinv Hscan)].
    destruct (setStartingGesture a t landmarks angles) as [sg|e] eqn:Hsg;
      [|discriminate].
    cbn [bind] in Hscan. refine (IH _ c' _ Hscan).
    destruct Hinv as [Hbatch _]. split; [exact Hbatch|].
    cbn. intros act Hact. inversion Hact; subst.
    apply (setStartingGesture_start _ _ _ _ _ Hsg).
Qed.

Lemma clear_consistent (c : Calculator) : consistent c -> consistent (clear c).
Proof.
  intros [Hbatch _]. split; [exact Hbatch|]. intros act Hact. discriminate.
Qed.

Lemma execute_consistent (act : movingActionMap) (c c' : Calculator)
    (now : Timestamp) (landmarks : Landmarks) (angles : Angles)
    (sent : list (Packet MqttMessages)) :
  consistent c -> currentAction c = Some act ->
  execute act c now landmarks angles = OkStatus (c', sent) ->
  consistent c'.
Proof.
  intros [Hbatch Hinv] Hcur Hexec. unfold execute in Hexec.
  destruct (count_actions act _ landmarks angles) as [n0|e]; [|discriminate].
  cbn [bind] in Hexec.
  destruct (clamp_to_sign act n0) as [n1|e]; [|discriminate].
  cbn [bind] in Hexec.
  destruct (clamp_to_max act n1) as [n2|e]; [|discriminate].
  cbn [bind] in Hexec.
  destruct (int_abs n2) as [n|e]; [|discriminate]. cbn [bind] in Hexec.
  destruct (Z.eqb_spec n 0) as [Hn|Hn]; cbn [negb] in Hexec;
    inversion Hexec; subst; split; cbn.
  - rewrite Hbatch. reflexivity.
  - intros act' Hact'. inversion Hact'; subst. apply Hinv, Hcur.
  - reflexivity.
  - intros act' Hact'. discriminate.
Qed.

Lemma moving_Process_consistent (c c' : Calculator) (cc : Inputs)
    (out : Outputs) :
  consistent c ->
  Process options_ c cc = OkStatus (c', out) ->
  consistent c'.
Proof.
  intros Hinv Hprocess. unfold Process in Hprocess.
  destruct (required (DETECTIONS cc)) as [dets|e]; [|discriminate].
  cbn [bind] in Hprocess.
  destruct (back_label_id dets) as [label|e]; [|discriminate].
  cbn [bind] in Hprocess.
  destruct (required (NORM_LANDMARKS cc)) as [landmarks|e]; [|discriminate].
  cbn [bind] in Hprocess.
  destruct (required (ANGLES cc)) as [angles|e]; [|discriminate].
  cbn [bind] in Hprocess.
  set (c1 := if negb (starting_start_action (startingGesture c)
                      =? current_start_action (currentAction c))
             then clear c else c) in Hprocess.
  assert (Hinv1 : consistent c1)
    by (unfold c1; destruct (negb _); [apply clear_consistent|]; exact Hinv).
  destruct (currentAction c1) as [act1|] eqn:Hcur1;
    cbn [IsInitialized negb] in Hprocess.
  - set (c2 := if Qge_bool _ (moving_time_out_s options_) then clear c1 else c1)
      in Hprocess.
    assert (Hinv2 : consistent c2)
      by (unfold c2; destruct (Qge_bool _ _); [apply clear_consistent|];
          exact Hinv1).
    destruct (currentAction c2) as [act|] eqn:Hcur2.
    + destruct (Qge_bool _ (time_between_actions act)).
      * destruct (execute act c2 _ landmarks angles) as [[c3 sent]|e] eqn:Hexec;
          [|discriminate].
        cbn [bind] in Hprocess. inversion Hprocess; subst.
        apply (execute_consistent act c2 c' _ _ _ _ Hinv2 Hcur2 Hexec).
      * cbn [bind] in Hprocess. inversion Hprocess; subst. exact Hinv2.
    + cbn [bind] in Hprocess. inversion Hprocess; subst. exact Hinv2.
  - destruct (scan_actions label _ landmarks angles _ c1) as [c2|e] eqn:Hscan;
      [|discriminate].
    cbn [bind] in Hprocess.
    pose proof (scan_actions_consistent _ _ _ _ _ _ _ Hinv1 Hscan) as Hinv2.
    destruct (negb (IsInitialized (currentAction c2)));
      inversion Hprocess; subst; [apply clear_consistent|]; exact Hinv2.
Qed.

(** The members of an armed engine between two frames: the start id kept
    with the baseline is that of the armed action. This is what the test
    at the top of [Process] compares, so the test never clears such an
    engine, whatever the label of the frame. *)
Lemma moving_abort_test_idle (c : Calculator) (act : movingActionMap) :
  currentAction c = Some act ->
  starting_start_action (startingGesture c) = start_action act ->
  (if negb (starting_start_action (startingGesture c)
            =? current_start_action (currentAction c))
   then clear c else c) = c.
Proof.
  intros Hcur Hsame. rewrite Hcur. cbn [current_start_action].
  rewrite Hsame, Z.eqb_refl. reflexivity.
Qed.

(** C2. The moving engine is armed on the rotation of gesture 6 by a
    frame at t = 0; the next frame, at t = 0.1 s, is labelled 4: the engine
    is not cleared, it stays armed on gesture 6 and the unarmed flag is not
    sent; under a frame labelled 4 at t = 0.5 s it even fires the commands
    of gesture 6. *)
Theorem moving_label_change_not_cleared :
  Open Examples.moving_options = OkStatus Examples.moving_opened
  /\ Process Examples.moving_options Examples.moving_opened
       (Examples.moving_frame 0 6 0.5%Q 0.5%Q) =
     OkStatus (Examples.moving_armed, {| MQTT_MESSAGE := []; FLAG := [] |})
  /\ Process Examples.moving_options Examples.moving_armed
       (Examples.moving_frame 100000 4 0.5%Q 0.5%Q) =
     OkStatus (Examples.moving_armed, {| MQTT_MESSAGE := []; FLAG := [] |})
  /\ Process Examples.moving_options Examples.moving_armed
       (Examples.moving_frame 500000 4 0.5%Q 0.15%Q) =
     OkStatus (Examples.moving_opened,
               {| MQTT_MESSAGE :=
                    [MakePacket (repeat (Examples.message "KEY_VOLUMEUP") 3)
                       500001];
                  FLAG := [MakePacket true 500001] |}).
Proof.
  repeat split; vm_compute; reflexivity.
Qed.

End Frame.

End MovingFacts.

(** ** The classifier *)

Module ClassifierFacts.
Import Classifier.

Lemma Process_label (c : Calculator) (now : Timestamp) (label : Z) :
  Process c (Examples.classifier_frame now label) =
  OkStatus (c,
    let h := str2int (default "" (gesture_map_ c !! label)) in
    if h =? str2int transitionTag then setLatches true false false false now []
    else if h =? str2int movingTag then setLatches false true false false now []
    else if h =? str2int writingTag then setLatches false false true false now []
    else if h =? str2int fixedTag then setLatches false false false true now []
    else setLatches false false false false now
           [MakePacket true (NextAllowedInStream now)]).
Proof. reflexivity. Qed.

(** A label whose line is one of the four names raises the latch of that
    category alone; nothing is sent on TBD. *)
Lemma classifier_named_category (c : Calculator) (now : Timestamp) (label : Z) :
  (gesture_map_ c !! label = Some transitionTag ->
   Process c (Examples.classifier_frame now label) =
   OkStatus (c, setLatches true false false false now []))
  /\ (gesture_map_ c !! label = Some movingTag ->
      Process c (Examples.classifier_frame now label) =
      OkStatus (c, setLatches false true false false now []))
  /\ (gesture_map_ c !! label = Some writingTag ->
      Process c (Examples.classifier_frame now label) =
      OkStatus (c, setLatches false false true false now []))
  /\ (gesture_map_ c !! label = Some fixedTag ->
      Process c (Examples.classifier_frame now label) =
      OkStatus (c, setLatches false false false true now [])).
Proof.
  repeat split; intros H; rewrite Process_label, H; reflexivity.
Qed.

(** A label without a line lowers the four latches and releases the flow
    limiter on the next allowed timestamp. *)
Lemma classifier_absent_label (c : Calculator) (now : Timestamp) (label : Z) :
  gesture_map_ c !! label = None ->
  Process c (Examples.classifier_frame now label) =
  OkStatus (c, setLatches false false false false now
                 [MakePacket true (now + 1)]).
Proof.
  intros H. rewrite Process_label, H. reflexivity.
Qed.

(** C9. The table whose line 0 reads "ccatuse", a text that is none of the
    four category names: a detection labelled 0 raises the latch of the
    fixed category and sends nothing on TBD, because [str2int] gives that
    text and "fixed" the same value. *)
Theorem classifier_colliding_name :
  str2int "ccatuse" = str2int fixedTag
  /\ map (String.eqb "ccatuse") [transitionTag; movingTag; writingTag; fixedTag]
     = [false; false; false; false]
  /\ (c <- Open "ccatuse";;
      OkStatus (gesture_map_ c !! 0)) = OkStatus (Some "ccatuse")
  /\ (c <- Open "ccatuse";;
      r <- Process c (Examples.classifier_frame 0 0);;
      OkStatus (snd r)) =
     OkStatus (setLatches false false false true 0 []).
Proof.
  repeat split; vm_compute; reflexivity.
Qed.

End ClassifierFacts.

(** ** Arming of the three engines *)

(** C1 (as amended). An unarmed engine that receives a label arms on the
    last entry of its configured list, in configuration order, whose start
    id is the label: every matching entry is assigned in turn and the last
    assignment stays. When no entry matches, the engine stays unarmed for
    that frame and sends the unarmed flag. For the fixed engine the entries
    that match are those that pass the checks made on arming. *)
Theorem unarmed_engine_arms_on_last_match :
  (forall (options_ : Transition.transitionDynamicGesturesCalculatorOptions)
          (c : Transition.Calculator) (cc : Transition.Inputs)
          (input_detections : Detections) (label : Z),
      Transition.notEmpty (Transition.currentAction c) = false ->
      Transition.actionsMap c
        = map Transition.loadAct (Transition.actions_map options_) ->
      Transition.DETECTIONS cc = Some input_detections ->
      back_label_id input_detections = OkStatus label ->
      exists c' out,
        Transition.Process options_ c cc = OkStatus (c', out)
        /\ Transition.MQTT_MESSAGE out = []
        /\ match find_last (Transition.starts_with label)
                   (Transition.actionsMap c) with
           | Some a =>
               Transition.currentAction c' = a /\ Transition.FLAG out = []
           | None =>
               Transition.notEmpty (Transition.currentAction c') = false
               /\ Transition.FLAG out =
                  [MakePacket true
                     (NextAllowedInStream (Transition.InputTimestamp cc))]
           end)
  /\ (forall (options_ : Moving.movingDynamicGesturesCalculatorOptions)
             (c : Moving.Calculator) (cc : Moving.Inputs) (label : Z)
             (landmarks : Landmarks) (angles : Angles),
         Moving.currentAction c = None ->
         Moving.carries cc label landmarks angles ->
         (forall a, In a (Moving.moving_actions_map options_) ->
                    Moving.start_action a = label ->
                    exists sg,
                      Moving.setStartingGesture a
                        (Seconds (Moving.InputTimestamp cc)) landmarks angles
                      = OkStatus sg) ->
         exists c' out,
           Moving.Process options_ c cc = OkStatus (c', out)
           /\ Moving.MQTT_MESSAGE out = []
           /\ Moving.currentAction c' =
              find_last (Moving.starts_with label)
                        (Moving.moving_actions_map options_)
           /\ Moving.FLAG out =
              match Moving.currentAction c' with
              | Some _ => []
              | None => [MakePacket true
                           (NextAllowedInStream (Moving.InputTimestamp cc))]
              end)
  /\ (forall (options_ : Fixed.fixedDynamicGesturesCalculatorOptions)
             (c : Fixed.Calculator) (cc : Fixed.Inputs) (label : Z)
             (landmarks : Landmarks) (angles : Angles),
         Fixed.currentAction c = None ->
         (forall a, In a (Fixed.fixed_actions_map options_) ->
                    Fixed.start_action a = label ->
                    Fixed.check_action a = OkStatus tt) ->
         (exists c1,
             Fixed.arm options_ c label = OkStatus c1
             /\ Fixed.currentAction c1 =
                find_last (Fixed.starts_with label)
                          (Fixed.fixed_actions_map options_))
         /\ (Fixed.carries cc label landmarks angles ->
             find_last (Fixed.starts_with label)
                       (Fixed.fixed_actions_map options_) = None ->
             Fixed.Process options_ c cc =
             OkStatus (Fixed.clear c,
                       {| Fixed.MQTT_MESSAGE := [];
                          Fixed.FLAG :=
                            [MakePacket true
                               (NextAllowedInStream (Fixed.InputTimestamp cc))] |}))).
Proof.
  split; [|split].
  - intros options_ c cc dets label Hidle Hloaded Hdet Hlabel.
    rewrite (TransitionFacts.transition_idle_frame options_ c cc dets label
               Hidle) by
      (try assumption; intros a Ha; rewrite Hloaded in Ha;
       apply (TransitionFacts.loaded_notEmpty _ _ Ha)).
    destruct (find_last (Transition.starts_with label) (Transition.actionsMap c));
      eexists _, _; (split; [reflexivity|]); cbn; auto.
  - intros options_ c cc label landmarks angles Hidle Hcc Hread.
    destruct (MovingFacts.moving_idle_frame options_ c cc label landmarks angles
                Hidle Hcc Hread) as [c' [Hprocess Hcur]].
    eexists _, _. split; [exact Hprocess|]. cbn [Moving.MQTT_MESSAGE Moving.FLAG].
    split; [reflexivity|]. split; [exact Hcur|].
    unfold Moving.flag_packets.
    destruct (Moving.currentAction c'); reflexivity.
  - intros options_ c cc label landmarks angles Hidle Hchecks. split.
    + rewrite (FixedFacts.arm_unarmed options_ c label Hidle Hchecks).
      eexists. split; [reflexivity|].
      destruct (find_last (Fixed.starts_with label)
                  (Fixed.fixed_actions_map options_)); reflexivity.
    + intros Hcc Hnone.
      apply (FixedFacts.fixed_unmatched_frame options_ c cc label landmarks
               angles Hidle Hcc Hnone).
Qed.

(** ** Concrete frames *)

(** C1, as first stated: each engine is given two entries for the same
    start gesture; the first match is the first entry, yet the engine ends
    armed on the second one (the fixed engine, which fires on arming, sends
    the command of the second one). *)
Lemma first_match_does_not_win :
  (find (Transition.starts_with 0)
        (Transition.actionsMap
           (Examples.transition_opened Examples.transition_options_twice))
   = Some (Transition.loadAct Examples.transition_pair_first)
   /\ exists c' out,
        Transition.Process Examples.transition_options_twice
          (Examples.transition_opened Examples.transition_options_twice)
          (Examples.transition_frame 0 0)
        = OkStatus (c', out)
        /\ Transition.currentAction c'
           = Transition.loadAct Examples.transition_pair_second
        /\ Transition.currentAction c'
           <> Transition.loadAct Examples.transition_pair_first)
  /\ (find (Moving.starts_with 6)
           (Moving.moving_actions_map Examples.moving_options_twice)
      = Some Examples.moving_rotation
      /\ exists c' out,
           Moving.Process Examples.moving_options_twice Examples.moving_opened
             (Examples.moving_frame 0 6 0.5%Q 0.5%Q)
           = OkStatus (c', out)
           /\ Moving.currentAction c' = Some Examples.moving_rotation_second
           /\ Moving.currentAction c' <> Some Examples.moving_rotation)
  /\ (find (Fixed.starts_with 1) [Examples.fixed_mute; Examples.fixed_power]
      = Some Examples.fixed_mute
      /\ exists c1 c',
           Fixed.arm (Examples.fixed_options
                        [Examples.fixed_mute; Examples.fixed_power])
             Examples.fixed_opened 1
           = OkStatus c1
           /\ Fixed.currentAction c1 = Some Examples.fixed_power
           /\ Fixed.currentAction c1 <> Some Examples.fixed_mute
           /\ Fixed.Process (Examples.fixed_options
                               [Examples.fixed_mute; Examples.fixed_power])
                Examples.fixed_opened (Examples.fixed_frame 0 1 0%Q)
              = OkStatus
                  (c', {| Fixed.MQTT_MESSAGE :=
                            [MakePacket [Examples.message "KEY_POWER"] 1];
                          Fixed.FLAG := [MakePacket true 1] |})).
Proof.
  split; [|split].
  - split; [reflexivity|]. eexists _, _. split; [reflexivity|].
    split; [reflexivity | discriminate].
  - split; [reflexivity|]. eexists _, _. split; [reflexivity|].
    split; [reflexivity | discriminate].
  - split; [reflexivity|]. eexists _, _. split; [reflexivity|].
    split; [reflexivity|]. split; [discriminate | reflexivity].
Qed.


(** C6, as first stated: a configuration holding an entry with two windows
    and one payload is accepted by [Open], and the engine then sends the
    command of another entry. *)
Lemma fixed_mismatch_accepted_by_Open :
  length (Fixed.angle_limits Examples.fixed_mismatched) = 2%nat
  /\ length (Fixed.mqtt_message Examples.fixed_mismatched) = 1%nat
  /\ Fixed.Open (Examples.fixed_options
                   [Examples.fixed_mismatched; Examples.fixed_mute])
     = OkStatus Examples.fixed_opened
  /\ exists c',
       Fixed.Process (Examples.fixed_options
                        [Examples.fixed_mismatched; Examples.fixed_mute])
         Examples.fixed_opened (Examples.fixed_frame 0 1 0%Q)
       = OkStatus
           (c', {| Fixed.MQTT_MESSAGE :=
                     [MakePacket [Examples.message "KEY_MUTE"] 1];
                   Fixed.FLAG := [MakePacket true 1] |}).
Proof.
  split; [reflexivity|]. split; [reflexivity|]. split; [reflexivity|].
  eexists. reflexivity.
Qed.


(** *** The theorems at concrete frames *)

(** A concrete frame carries its label, landmarks and angles. *)
Ltac concrete_frame :=
  split; [eexists; split; reflexivity | split; reflexivity].

(** C1 at the configurations with two entries for one start gesture. *)
Lemma unarmed_engine_arms_on_last_match_witness :
  (exists c' out,
      Transition.Process Examples.transition_options_twice
        (Examples.transition_opened Examples.transition_options_twice)
        (Examples.transition_frame 0 0) = OkStatus (c', out)
      /\ Transition.currentAction c'
         = Transition.loadAct Examples.transition_pair_second)
  /\ (exists c' out,
         Moving.Process Examples.moving_options_twice Examples.moving_opened
           (Examples.moving_frame 0 6 0.5%Q 0.5%Q) = OkStatus (c', out)
         /\ Moving.currentAction c' = Some Examples.moving_rotation_second)
  /\ (exists c1,
         Fixed.arm (Examples.fixed_options
                      [Examples.fixed_mute; Examples.fixed_power])
           Examples.fixed_opened 1 = OkStatus c1
         /\ Fixed.currentAction c1 = Some Examples.fixed_power).
Proof.
  destruct unarmed_engine_arms_on_last_match as [Htransition [Hmoving Hfixed]].
  split; [|split].
  - destruct (Htransition Examples.transition_options_twice
                (Examples.transition_opened Examples.transition_options_twice)
                (Examples.transition_frame 0 0) [{| label_id := [0] |}] 0
                eq_refl eq_refl eq_refl eq_refl)
      as [c' [out [Hprocess [_ Hlast]]]].
    destruct Hlast as [Hcur _]. exists c', out. split; assumption.
  - destruct (Hmoving Examples.moving_options_twice Examples.moving_opened
                (Examples.moving_frame 0 6 0.5%Q 0.5%Q) 6
                [{| x := 0.5%Q; y := 0%Q; z := 0%Q |}]
                [{| angle1 := 0.5%Q; angle2 := 0%Q |}])
      as [c' [out [Hprocess [_ [Hcur _]]]]].
    + reflexivity.
    + concrete_frame.
    + intros a [<-|[<-|[<-|[]]]] _; eexists; reflexivity.
    + exists c', out. split; assumption.
  - destruct (Hfixed (Examples.fixed_options
                        [Examples.fixed_mute; Examples.fixed_power])
                Examples.fixed_opened (Examples.fixed_frame 0 1 0%Q) 1
                [{| x := 0%Q; y := 0%Q; z := 0%Q |}]
                [{| angle1 := 0%Q; angle2 := 0%Q |}])
      as [[c1 [Harm Hcur]] _].
    + reflexivity.
    + intros a [<-|[<-|[]]] _; reflexivity.
    + exists c1. split; assumption.
Defined.




(** C6 at a configuration whose only entry has two windows and one
    payload. *)
Lemma fixed_mismatch_raised_by_Process_witness :
  exists message,
    Fixed.Process (Examples.fixed_options [Examples.fixed_mismatched])
      Examples.fixed_opened (Examples.fixed_frame 0 3 0.5%Q)
    = ErrStatus (RetCheckFailure message).
Proof.
  apply (proj2 (FixedFacts.fixed_mismatch_raised_by_Process
                  (Examples.fixed_options [Examples.fixed_mismatched]))
           Examples.fixed_opened (Examples.fixed_frame 0 3 0.5%Q) 3
           [{| x := 0%Q; y := 0%Q; z := 0%Q |}]
           [{| angle1 := 0.5%Q; angle2 := 0%Q |}]
           Examples.fixed_mismatched 0).
  - left. reflexivity.
  - reflexivity.
  - simpl. lia.
  - reflexivity.
  - reflexivity.
  - concrete_frame.
Defined.

(** C7 at the windows of the specification and the angle 0.5. *)
Lemma fixed_last_window_wins_witness :
  exists c' sent,
    Fixed.executeAction Examples.fixed_windows Examples.fixed_opened
      (Seconds 0) [{| angle1 := 0.5%Q; angle2 := 0%Q |}] 0
    = OkStatus (c', sent)
    /\ (sent = []
        \/ exists k m,
             Fixed.last_window Examples.fixed_windows 0.5%Q k
             /\ nth_error (Fixed.mqtt_message Examples.fixed_windows) k = Some m
             /\ sent = [MakePacket [m] 1]).
Proof.
  destruct (proj1 FixedFacts.fixed_last_window_wins Examples.fixed_windows
              Examples.fixed_opened (Seconds 0)
              [{| angle1 := 0.5%Q; angle2 := 0%Q |}] 0 0 0.5%Q
              eq_refl eq_refl eq_refl eq_refl)
    as [c' [sent [Hexec [Hsent _]]]].
  exists c', sent. split; assumption.
Defined.


(** C10 at the first frame of a plain gesture. *)
Lemma fixed_firing_clears_action_witness :
  exists act,
    Fixed.start_action act = 1
    /\ Fixed.arm (Examples.fixed_options [Examples.fixed_mute])
         {| Fixed.currentAction := None;
            Fixed.lastGesture :=
              {| Fixed.last_start_action := 1; Fixed.time := Seconds 0;
                 Fixed.notEmpty := true |};
            Fixed.mqttMessages := [] |} 1
       = OkStatus
           {| Fixed.currentAction := Some act;
              Fixed.lastGesture :=
                {| Fixed.last_start_action := 1; Fixed.time := Seconds 0;
                   Fixed.notEmpty := true |};
              Fixed.mqttMessages := [] |}.
Proof.
  destruct (FixedFacts.fixed_firing_clears_action
              (Examples.fixed_options [Examples.fixed_mute])
              Examples.fixed_opened
              {| Fixed.currentAction := None;
                 Fixed.lastGesture :=
                   {| Fixed.last_start_action := 1; Fixed.time := Seconds 0;
                      Fixed.notEmpty := true |};
                 Fixed.mqttMessages := [] |}
              (Examples.fixed_frame 0 1 0%Q) 1
              [{| x := 0%Q; y := 0%Q; z := 0%Q |}]
              [{| angle1 := 0%Q; angle2 := 0%Q |}]
              {| Fixed.MQTT_MESSAGE :=
                   [MakePacket [Examples.message "KEY_MUTE"] 1];
                 Fixed.FLAG := [MakePacket true 1] |})
    as [_ [_ [act [Hstart [_ Harm]]]]].
  - split; [reflexivity|]. intros act H. discriminate.
  - concrete_frame.
  - reflexivity.
  - discriminate.
  - exists act. split; assumption.
Defined.

(** * Further properties of the calculators *)

(** ** The transition engine over several frames *)

Module TransitionRuns.
Import Transition.

Lemma loaded_message (m : transitionActionMap) :
  {| Formats.topic := topic (mqtt (loadAct m));
     Formats.payload := payload (mqtt (loadAct m)) |} = mqtt_message m.
Proof. destruct m as [s e [t p]]. reflexivity. Qed.

(** X1. A start gesture followed, before the timeout, by the end gesture of
    the pair armed by the start gesture: the first frame arms and sends
    nothing, the second sends the one command of the pair with the unarmed
    flag and leaves the members as they were before the start gesture,
    cleared. *)
Theorem transition_start_then_end
    (options_ : transitionDynamicGesturesCalculatorOptions)
    (c : Calculator) (cc1 cc2 : Inputs) (dets1 dets2 : Detections)
    (a : _actions) :
  consistent options_ c ->
  notEmpty (currentAction c) = false ->
  DETECTIONS cc1 = Some dets1 ->
  back_label_id dets1 = OkStatus (startAction a) ->
  find_last (starts_with (startAction a)) (actionsMap c) = Some a ->
  DETECTIONS cc2 = Some dets2 ->
  back_label_id dets2 = OkStatus (endAction a) ->
  ~ (time_out_s options_
     <= Seconds (InputTimestamp cc2) - Seconds (InputTimestamp cc1))%Q ->
  exists c1,
    Process options_ c cc1
    = OkStatus (c1, {| MQTT_MESSAGE := []; FLAG := [] |})
    /\ Process options_ c1 cc2
       = OkStatus
           (clear c,
            {| MQTT_MESSAGE :=
                 [MakePacket
                    [{| Formats.topic := topic (mqtt a);
                        Formats.payload := payload (mqtt a) |}]
                    (NextAllowedInStream (InputTimestamp cc2))];
               FLAG := [MakePacket true
                          (NextAllowedInStream (InputTimestamp cc2))] |}).
Proof.
  intros [Htable Hbatch] Hidle Hdet1 Hlabel1 Hfind Hdet2 Hlabel2 Hto.
  assert (Hloaded : forall b, In b (actionsMap c) -> notEmpty b = true)
    by (intros b Hb; rewrite Htable in Hb;
        apply (TransitionFacts.loaded_notEmpty _ _ Hb)).
  exists (set_armed c a (Seconds (InputTimestamp cc1))). split.
  - rewrite (TransitionFacts.transition_idle_frame options_ c cc1 dets1
               (startAction a) Hidle Hloaded Hdet1 Hlabel1), Hfind.
    reflexivity.
  - apply find_last_Some in Hfind. destruct Hfind as [Hin _].
    pose proof (Hloaded a Hin) as Harmed.
    unfold Process. rewrite Hdet2, Hlabel2. cbn [bind].
    cbn [set_armed currentAction startingGestureTime mqttMessages].
    rewrite Harmed. cbn [negb].
    apply Qge_bool_false in Hto. rewrite Hto.
    cbn [set_armed currentAction startingGestureTime mqttMessages].
    rewrite Harmed, Z.eqb_refl, Hbatch. cbn [andb app].
    unfold set_mqttMessages, clear, set_armed, flag_packets. cbn.
    rewrite Hbatch. reflexivity.
Qed.

(** One frame keeps the table and the empty batch, keeps the armed slot
    within the table, and sends at most the command of a configured pair. *)
Lemma Process_from_table
    (options_ : transitionDynamicGesturesCalculatorOptions)
    (c c' : Calculator) (cc : Inputs) (out : Outputs) :
  consistent options_ c -> from_table c ->
  Process options_ c cc = OkStatus (c', out) ->
  from_table c'
  /\ (MQTT_MESSAGE out = []
      \/ exists m,
           In m (actions_map options_)
           /\ MQTT_MESSAGE out
              = [MakePacket [mqtt_message m]
                   (NextAllowedInStream (InputTimestamp cc))]).
Proof.
  intros [Htable Hbatch] Hfrom Hprocess. unfold Process in Hprocess.
  destruct (DETECTIONS cc) as [dets|];
    [|inversion Hprocess; subst; split; [exact Hfrom | left; reflexivity]].
  destruct (back_label_id dets) as [label|e]; [|discriminate].
  cbn [bind] in Hprocess.
  destruct (notEmpty (currentAction c)) eqn:Harmed; cbn [negb] in Hprocess.
  - destruct (Qge_bool _ (time_out_s options_)).
    + cbn in Hprocess. inversion Hprocess; subst.
      split; [intros H; discriminate | left; reflexivity].
    + rewrite Harmed in Hprocess.
      destruct (label =? endAction (currentAction c)); cbn [andb] in Hprocess;
        inversion Hprocess; subst.
      * split; [intros H; discriminate|]. right.
        pose proof (Hfrom Harmed) as Hin. rewrite Htable in Hin.
        apply in_map_iff in Hin. destruct Hin as [m [Hm Hin]].
        exists m. split; [exact Hin|]. cbn [MQTT_MESSAGE].
        rewrite Hbatch, <- Hm, loaded_message. reflexivity.
      * split; [exact Hfrom | left; reflexivity].
  - rewrite TransitionFacts.transition_scan_last in Hprocess.
    destruct (find_last (starts_with label) (actionsMap c)) as [a|] eqn:Hfind.
    + apply find_last_Some in Hfind. destruct Hfind as [Hin _].
      destruct (negb (notEmpty (currentAction (set_armed c a _))));
        inversion Hprocess; subst.
      * split; [intros H; discriminate | left; reflexivity].
      * split; [intros _; exact Hin | left; reflexivity].
    + rewrite Harmed in Hprocess. cbn [negb] in Hprocess.
      inversion Hprocess; subst.
      split; [intros H; discriminate | left; reflexivity].
Qed.

Lemma run_from_table
    (options_ : transitionDynamicGesturesCalculatorOptions)
    (frames : list Inputs) :
  forall (c c' : Calculator) (outs : list Outputs),
    consistent options_ c -> from_table c ->
    run options_ c frames = OkStatus (c', outs) ->
    Forall (fun out =>
              MQTT_MESSAGE out = []
              \/ exists m now,
                   In m (actions_map options_)
                   /\ MQTT_MESSAGE out = [MakePacket [mqtt_message m] now])
           outs.
Proof.
  induction frames as [|cc rest IH]; intros c c' outs Hinv Hfrom Hrun.
  - inversion Hrun; subst. constructor.
  - cbn [run] in Hrun.
    destruct (Process options_ c cc) as [[c1 out]|e] eqn:Hprocess;
      [|discriminate].
    cbn [bind] in Hrun.
    destruct (run options_ c1 rest) as [[c2 outs']|e] eqn:Hrest;
      [|discriminate].
    cbn [bind] in Hrun. inversion Hrun; subst.
    destruct (Process_from_table options_ c c1 cc out Hinv Hfrom Hprocess)
      as [Hfrom1 Hout].
    constructor.
    + destruct Hout as [Hnone|[m [Hin Hsent]]]; [left; exact Hnone|].
      right. exists m, (NextAllowedInStream (InputTimestamp cc)). auto.
    + apply (IH c1 c' outs'); try assumption.
      apply (TransitionFacts.transition_Process_consistent options_ c c1 cc out
               Hinv Hprocess).
Qed.

(** X2. Over any run of frames after [Open], each frame of the transition
    engine sends either no command or one packet holding exactly the
    command of one configured pair. *)
Theorem transition_commands_are_configured
    (options_ : transitionDynamicGesturesCalculatorOptions)
    (frames : list Inputs) (c0 c : Calculator) (outs : list Outputs) :
  Open options_ = OkStatus c0 ->
  run options_ c0 frames = OkStatus (c, outs) ->
  Forall (fun out =>
            MQTT_MESSAGE out = []
            \/ exists m now,
                 In m (actions_map options_)
                 /\ MQTT_MESSAGE out = [MakePacket [mqtt_message m] now])
         outs.
Proof.
  intros Hopen Hrun.
  apply (run_from_table options_ frames c0 c outs); [| |exact Hrun].
  - apply (TransitionFacts.transition_Open_consistent _ _ Hopen).
  - unfold Open, RET_CHECK in Hopen. destruct (0 <=? _); [|discriminate].
    cbn [bind] in Hopen. inversion Hopen; subst. intros H. discriminate.
Qed.

End TransitionRuns.

(** ** The fixed engine: reads, outputs and time *)

Module FixedRuns.
Import Fixed.

Lemma element_at_in_range {A : Type} (v : list A) (i : Z) :
  0 <= i < Z.of_nat (length v) -> exists a, element_at v i = OkStatus a.
Proof.
  intros [Hlo Hhi]. unfold element_at.
  destruct (Z.ltb_spec i 0) as [Hneg|_]; [lia|].
  destruct (nth_error v (Z.to_nat i)) as [a|] eqn:Hnth; [exists a; reflexivity|].
  apply nth_error_None in Hnth. lia.
Qed.

Lemma check_action_sizes (act : fixedActionMap) (lmId : Z) :
  check_action act = OkStatus tt ->
  landmark_id act = Some lmId ->
  length (angle_limits act) = length (mqtt_message act).
Proof.
  unfold check_action, has_landmark_id, RET_CHECK. intros Hcheck Hlm.
  rewrite Hlm in Hcheck. destruct (has_angle_number act); [|discriminate].
  cbn [bind] in Hcheck.
  destruct (Nat.eqb_spec (length (angle_limits act)) (length (mqtt_message act)));
    [assumption | discriminate].
Qed.

(** The entry left by a scan has passed the checks made on arming. *)
Lemma scan_actions_checked (label : Z) (acts : list fixedActionMap) :
  forall cur act,
    scan_actions label acts cur = OkStatus (Some act) ->
    cur = Some act \/ check_action act = OkStatus tt.
Proof.
  induction acts as [|a rest IH]; intros cur act Hscan.
  - inversion Hscan. left. reflexivity.
  - cbn [scan_actions] in Hscan.
    destruct (start_action a =? label); [|apply (IH _ _ Hscan)].
    destruct (check_action a) as [[]|e] eqn:Hcheck; [|discriminate].
    cbn [bind] in Hscan.
    destruct (IH _ _ Hscan) as [Heq|Hok]; [|right; exact Hok].
    inversion Heq; subst. right. exact Hcheck.
Qed.

Lemma scan_actions_failure (label : Z) (acts : list fixedActionMap) :
  forall cur e,
    scan_actions label acts cur = ErrStatus e ->
    exists message, e = RetCheckFailure message.
Proof.
  induction acts as [|a rest IH]; intros cur e Hscan; [discriminate|].
  cbn [scan_actions] in Hscan.
  destruct (start_action a =? label); [|apply (IH _ _ Hscan)].
  destruct (check_action a) as [[]|e'] eqn:Hcheck; cbn [bind] in Hscan.
  - apply (IH _ _ Hscan).
  - inversion Hscan; subst. apply (FixedFacts.check_action_error _ _ Hcheck).
Qed.

Section Frame.

Variable options_ : fixedDynamicGesturesCalculatorOptions.

Lemma arm_failure (c : Calculator) (label : Z) (e : StatusError) :
  arm options_ c label = ErrStatus e ->
  exists message, e = RetCheckFailure message.
Proof.
  unfold arm. destruct (negb (IsInitialized _)); [|discriminate].
  destruct (scan_actions label (fixed_actions_map options_) _)
    as [[found|]|e'] eqn:Hscan; cbn [bind]; try discriminate.
  intros H; inversion H; subst. apply (scan_actions_failure _ _ _ _ Hscan).
Qed.

(** The selection reads within range when the angles cover the landmark
    of the action, the action has passed the checks made on arming, and a
    plain action has a payload entry. *)
Lemma select_command_in_range (act : fixedActionMap) (angles : Angles) :
  check_action act = OkStatus tt ->
  (forall lm, landmark_id act = Some lm -> 0 <= lm < Z.of_nat (length angles)) ->
  (landmark_id act = None -> mqtt_message act <> []) ->
  exists cmd, select_command act angles = OkStatus cmd.
Proof.
  intros Hcheck Hangles Hplain. unfold select_command.
  destruct (landmark_id act) as [lm|] eqn:Hlm.
  - unfold getAngle.
    destruct (element_at_in_range angles lm (Hangles lm eq_refl)) as [a Ha].
    rewrite Ha. cbn [bind].
    apply FixedFacts.scan_windows_total.
    rewrite (check_action_sizes act lm Hcheck Hlm). cbn. lia.
  - destruct (mqtt_message act) as [|m rest] eqn:Hm;
      [exfalso; apply (Hplain eq_refl); reflexivity|].
    eexists. reflexivity.
Qed.

Lemma executeAction_returns (act : fixedActionMap) (c : Calculator)
    (GestureTime : Q) (angles : Angles) (now : Timestamp) (cmd : Mqtt_Message) :
  select_command act angles = OkStatus cmd ->
  exists r, executeAction act c GestureTime angles now = OkStatus r.
Proof.
  intros Hsel. unfold executeAction. rewrite Hsel. cbn [bind].
  destruct (negb _); eexists; reflexivity.
Qed.

(** X3. With the angles covering the landmark of every configured action
    and a payload entry in every plain action, a frame of the fixed engine
    reads nothing out of range: [Process] returns its members and packets,
    or the error of one of its checks. The sizes compared on arming are
    what keeps the payload reads of the window loop within range. *)
Theorem fixed_reads_stay_in_range (c : Calculator) (cc : Inputs) (label : Z)
    (landmarks : Landmarks) (angles : Angles) :
  consistent options_ c ->
  carries cc label landmarks angles ->
  (forall act lm, In act (fixed_actions_map options_) ->
                  landmark_id act = Some lm ->
                  0 <= lm < Z.of_nat (length angles)) ->
  (forall act, In act (fixed_actions_map options_) ->
               landmark_id act = None -> mqtt_message act <> []) ->
  (exists c' out, Process options_ c cc = OkStatus (c', out))
  \/ (exists message,
         Process options_ c cc = ErrStatus (RetCheckFailure message)).
Proof.
  intros Hinv Hcc Hangles Hplain.
  rewrite (FixedFacts.Process_carries options_ c cc label landmarks angles Hcc).
  destruct (arm options_ c label) as [c1|e] eqn:Harm.
  - left. cbn [bind].
    destruct (FixedFacts.arm_consistent options_ c c1 label Hinv Harm)
      as [_ Harmed].
    assert (Hev : exists r, evaluate options_ c1 (InputTimestamp cc) angles
                            = OkStatus r).
    { unfold evaluate. destruct (currentAction c1) as [act|] eqn:Hcur;
        [|eexists; reflexivity].
      destruct (Harmed act eq_refl) as [Hscan _].
      destruct (FixedFacts.scan_actions_found _ _ _ Hscan) as [_ Hin].
      destruct (scan_actions_checked _ _ _ _ Hscan) as [Habs|Hcheck];
        [discriminate|].
      destruct (select_command_in_range act angles Hcheck
                  (fun lm Hlm => Hangles act lm Hin Hlm)
                  (fun Hlm => Hplain act Hin Hlm)) as [cmd Hsel].
      destruct (executeAction_returns act c1 (Seconds (InputTimestamp cc))
                  angles (InputTimestamp cc) cmd Hsel) as [[c2 sent] Hexec].
      destruct (negb (notEmpty (lastGesture c1)));
        [rewrite Hexec; cbn [bind]; eexists; reflexivity|].
      destruct (auto_repeat act && _);
        [rewrite Hexec|]; cbn [bind]; eexists; reflexivity. }
    destruct Hev as [[c2 sent] Hev]. rewrite Hev. cbn [bind].
    eexists _, _. reflexivity.
  - right. destruct (arm_failure c label e Harm) as [message ->].
    exists message. reflexivity.
Qed.

Lemma executeAction_shape (act : fixedActionMap) (c c' : Calculator)
    (GestureTime : Q) (angles : Angles) (now : Timestamp)
    (sent : list (Packet MqttMessages)) :
  mqttMessages c = [] ->
  executeAction act c GestureTime angles now = OkStatus (c', sent) ->
  sent = []
  \/ exists cmd, topic cmd <> "empty"
       /\ sent = [MakePacket [cmd] (NextAllowedInStream now)].
Proof.
  intros Hbatch. unfold executeAction.
  destruct (select_command act angles) as [cmd|e]; [|discriminate].
  cbn [bind]. destruct (String.eqb (topic cmd) "empty") eqn:Htopic;
    cbn [negb]; intros H; inversion H; subst; [left; reflexivity|].
  right. exists cmd. rewrite Hbatch. split; [|reflexivity].
  apply String.eqb_neq. exact Htopic.
Qed.

(** X4. A frame of the fixed engine sends at most one packet holding one
    command, whose topic is never the reserved word "empty", stamped for
    the next allowed timestamp. It ends either unarmed, with the unarmed
    flag sent, or armed, with neither a flag nor a command sent. *)
Theorem fixed_frame_outputs (c c' : Calculator) (cc : Inputs) (out : Outputs) :
  consistent options_ c ->
  Process options_ c cc = OkStatus (c', out) ->
  (MQTT_MESSAGE out = []
   \/ exists cmd,
        topic cmd <> "empty"
        /\ MQTT_MESSAGE out
           = [MakePacket [cmd] (NextAllowedInStream (InputTimestamp cc))])
  /\ ((currentAction c' = None
       /\ FLAG out
          = [MakePacket true (NextAllowedInStream (InputTimestamp cc))])
      \/ (exists act, currentAction c' = Some act)
         /\ FLAG out = [] /\ MQTT_MESSAGE out = []).
Proof.
  intros Hinv Hprocess. unfold Process in Hprocess.
  destruct (required (DETECTIONS cc)) as [dets|e]; [|discriminate].
  cbn [bind] in Hprocess.
  destruct (back_label_id dets) as [label|e]; [|discriminate].
  cbn [bind] in Hprocess.
  destruct (required (NORM_LANDMARKS cc)) as [landmarks|e]; [|discriminate].
  cbn [bind] in Hprocess.
  destruct (required (ANGLES cc)) as [angles|e]; [|discriminate].
  cbn [bind] in Hprocess.
  destruct (arm options_ c label) as [c1|e] eqn:Harm; [|discriminate].
  cbn [bind] in Hprocess.
  destruct (FixedFacts.arm_consistent options_ c c1 label Hinv Harm)
    as [Hbatch1 _].
  unfold evaluate in Hprocess.
  destruct (currentAction c1) as [act|] eqn:Hcur.
  - assert (Hdone : forall c2 sent,
      executeAction act c1 (Seconds (InputTimestamp cc)) angles
        (InputTimestamp cc) = OkStatus (c2, sent) ->
      OkStatus
        (let c3 := if Qge_bool (Seconds (InputTimestamp cc) - time (lastGesture c2))
                              (fixed_time_out_s options_)
                   then clear c2 else c2 in
         (c3, {| MQTT_MESSAGE := sent;
                 FLAG := flag_packets c3 (InputTimestamp cc) |}))
      = OkStatus (c', out) ->
      (MQTT_MESSAGE out = []
       \/ exists cmd,
            topic cmd <> "empty"
            /\ MQTT_MESSAGE out
               = [MakePacket [cmd] (NextAllowedInStream (InputTimestamp cc))])
      /\ ((currentAction c' = None
           /\ FLAG out
              = [MakePacket true (NextAllowedInStream (InputTimestamp cc))])
          \/ (exists act, currentAction c' = Some act)
             /\ FLAG out = [] /\ MQTT_MESSAGE out = [])).
    { intros c2 sent Hexec Hres.
      pose proof (executeAction_shape _ _ _ _ _ _ _ Hbatch1 Hexec) as Hshape.
      apply FixedFacts.executeAction_clears in Hexec.
      destruct Hexec as [Hnone _]. cbn zeta in Hres.
      destruct (Qge_bool _ (fixed_time_out_s options_));
        inversion Hres; subst; (split; [exact Hshape|]); left;
        unfold flag_packets; cbn; try rewrite Hnone; auto. }
    destruct (notEmpty (lastGesture c1)); cbn [negb] in Hprocess.
    + destruct (auto_repeat act && _).
      * destruct (executeAction act c1 _ angles _) as [[c2 sent]|e] eqn:Hexec;
          [|discriminate].
        cbn [bind] in Hprocess. apply (Hdone c2 sent eq_refl).
        destruct (Qge_bool _ (fixed_time_out_s options_)); exact Hprocess.
      * cbn [bind] in Hprocess.
        destruct (Qge_bool _ (fixed_time_out_s options_));
          inversion Hprocess; subst; (split; [left; reflexivity|]).
        -- left. split; reflexivity.
        -- right. unfold flag_packets. rewrite Hcur. cbn.
           split; [exists act; reflexivity | split; reflexivity].
    + destruct (executeAction act c1 _ angles _) as [[c2 sent]|e] eqn:Hexec;
        [|discriminate].
      cbn [bind] in Hprocess. apply (Hdone c2 sent eq_refl).
      destruct (Qge_bool _ (fixed_time_out_s options_)); exact Hprocess.
  - cbn [bind] in Hprocess. inversion Hprocess; subst.
    split; [left; reflexivity|]. left. unfold flag_packets. rewrite Hcur.
    split; reflexivity.
Qed.

Lemma no_time_elapsed (t limit : Q) :
  (0 < limit)%Q -> Qge_bool (t - t) limit = false.
Proof.
  intros Hpos. apply Qge_bool_false. intros Hle.
  assert (Hzero : (t - t == 0)%Q) by (unfold Qminus; apply Qplus_opp_r).
  rewrite Hzero in Hle. apply (Qle_not_lt _ _ Hle Hpos).
Qed.

(** The first execution of a gesture: an engine without stored action nor
    recorded firing arms on the entry selected by the scan and fires it in
    the same frame. *)
Lemma first_execution (c : Calculator) (cc : Inputs) (label : Z)
    (landmarks : Landmarks) (angles : Angles) (act : fixedActionMap)
    (cmd : Mqtt_Message) :
  currentAction c = None ->
  notEmpty (lastGesture c) = false ->
  mqttMessages c = [] ->
  carries cc label landmarks angles ->
  scan_actions label (fixed_actions_map options_) None = OkStatus (Some act) ->
  select_command act angles = OkStatus cmd ->
  topic cmd <> "empty" ->
  Process options_ c cc =
  OkStatus
    ((if Qge_bool (Seconds (InputTimestamp cc) - Seconds (InputTimestamp cc))
                  (fixed_time_out_s options_)
      then {| currentAction := None; lastGesture := zero_LastGesture;
              mqttMessages := [] |}
      else {| currentAction := None;
              lastGesture := setLastGesture act (Seconds (InputTimestamp cc));
              mqttMessages := [] |}),
     {| MQTT_MESSAGE :=
          [MakePacket [cmd] (NextAllowedInStream (InputTimestamp cc))];
        FLAG := [MakePacket true (NextAllowedInStream (InputTimestamp cc))] |}).
Proof.
  intros Hidle Hfresh Hbatch Hcc Hscan Hsel Htopic.
  rewrite (FixedFacts.Process_carries options_ c cc label landmarks angles Hcc).
  unfold arm, abort_on_label_change. rewrite Hfresh. cbn [andb].
  rewrite Hidle. cbn [IsInitialized negb]. rewrite Hscan. cbn [bind].
  unfold evaluate. cbn [currentAction lastGesture]. rewrite Hfresh.
  cbn [negb].
  rewrite (FixedFacts.executeAction_sends act _ _ _ _ _ Hsel Htopic)
    by exact Hbatch.
  cbn [bind lastGesture setLastGesture time].
  destruct (Qge_bool _ (fixed_time_out_s options_)); reflexivity.
Qed.

(** X5. A label that differs from the gesture of the recorded firing
    aborts that gesture, and the entry selected for the new label fires in
    the same frame, whatever the time since the last firing and the
    auto-repeat flag: the command is sent and the firing of the new gesture
    is recorded at the time of the frame. *)
Theorem fixed_label_change_fires_at_once (c : Calculator) (cc : Inputs)
    (label : Z) (landmarks : Landmarks) (angles : Angles)
    (act : fixedActionMap) (cmd : Mqtt_Message) :
  consistent options_ c ->
  carries cc label landmarks angles ->
  notEmpty (lastGesture c) = true ->
  last_start_action (lastGesture c) <> label ->
  scan_actions label (fixed_actions_map options_) None = OkStatus (Some act) ->
  select_command act angles = OkStatus cmd ->
  topic cmd <> "empty" ->
  (0 < fixed_time_out_s options_)%Q ->
  Process options_ c cc =
  OkStatus
    ({| currentAction := None;
        lastGesture := setLastGesture act (Seconds (InputTimestamp cc));
        mqttMessages := [] |},
     {| MQTT_MESSAGE :=
          [MakePacket [cmd] (NextAllowedInStream (InputTimestamp cc))];
        FLAG := [MakePacket true (NextAllowedInStream (InputTimestamp cc))] |}).
Proof.
  intros [Hbatch _] Hcc Hfired Hchange Hscan Hsel Htopic Hpos.
  assert (Hsame : Process options_ c cc = Process options_ (clear c) cc).
  { rewrite !(FixedFacts.Process_carries options_ _ cc label landmarks angles Hcc).
    unfold arm, abort_on_label_change. apply Z.eqb_neq in Hchange.
    rewrite Hfired, Hchange. reflexivity. }
  rewrite Hsame.
  rewrite (first_execution (clear c) cc label landmarks angles act cmd);
    try assumption; try reflexivity.
  rewrite (no_time_elapsed _ _ Hpos). reflexivity.
Qed.


End Frame.

End FixedRuns.

(** ** The moving engine: the frames of an armed engine *)

Module MovingRuns.
Import Moving.

Section Frame.

Variable options_ : movingDynamicGesturesCalculatorOptions.

(** The frame of an armed engine, once the inputs are read: the label
    plays no part. *)
Lemma Process_armed (c : Calculator) (cc : Inputs) (label : Z)
    (landmarks : Landmarks) (angles : Angles) (act : movingActionMap) :
  consistent c ->
  currentAction c = Some act ->
  carries cc label landmarks angles ->
  Process options_ c cc =
  (r <- (let c2 :=
           if Qge_bool (Seconds (InputTimestamp cc) - time (startingGesture c))
                       (moving_time_out_s options_)
           then clear c else c in
         match currentAction c2 with
         | Some act' =>
             if Qge_bool (Seconds (InputTimestamp cc) - time (startingGesture c2))
                         (time_between_actions act')
             then execute act' c2 (InputTimestamp cc) landmarks angles
             else OkStatus (c2, [])
         | None => OkStatus (c2, [])
         end);;
   OkStatus (fst r, {| MQTT_MESSAGE := snd r;
                       FLAG := flag_packets (fst r) (InputTimestamp cc) |})).
Proof.
  intros [_ Hinv] Hcur [[dets [Hdet Hlabel]] [Hlm Hang]].
  unfold Process. rewrite Hdet, Hlm, Hang. cbn [required bind].
  rewrite Hlabel. cbn [bind]. rewrite Hcur. cbn [current_start_action].
  rewrite (Hinv act Hcur), Z.eqb_refl. cbn [negb]. rewrite Hcur.
  cbn [IsInitialized negb].
  match goal with
  | |- bind ?m _ = bind ?m _ => destruct m as [[c3 sent]|e]; reflexivity
  end.
Qed.

(** X7. An armed moving engine never looks at the label: two frames with
    the same timestamp, landmarks and angles give the same members and the
    same packets whatever their labels. *)
Theorem moving_armed_ignores_label (c : Calculator) (cc cc' : Inputs)
    (label label' : Z) (landmarks : Landmarks) (angles : Angles)
    (act : movingActionMap) :
  consistent c ->
  currentAction c = Some act ->
  carries cc label landmarks angles ->
  carries cc' label' landmarks angles ->
  InputTimestamp cc = InputTimestamp cc' ->
  Process options_ c cc = Process options_ c cc'.
Proof.
  intros Hinv Hcur Hcc Hcc' Htime.
  rewrite (Process_armed c cc label landmarks angles act Hinv Hcur Hcc).
  rewrite (Process_armed c cc' label' landmarks angles act Hinv Hcur Hcc').
  rewrite Htime. reflexivity.
Qed.


(** X9. Between two evaluations, before the timeout, a frame leaves an
    armed moving engine exactly as it was and sends nothing, whatever the
    label, the landmarks and the angles it carries. *)
Theorem moving_quiet_frame (c : Calculator) (cc : Inputs) (label : Z)
    (landmarks : Landmarks) (angles : Angles) (act : movingActionMap) :
  consistent c ->
  currentAction c = Some act ->
  carries cc label landmarks angles ->
  ~ (moving_time_out_s options_
     <= Seconds (InputTimestamp cc) - time (startingGesture c))%Q ->
  ~ (time_between_actions act
     <= Seconds (InputTimestamp cc) - time (startingGesture c))%Q ->
  Process options_ c cc = OkStatus (c, {| MQTT_MESSAGE := []; FLAG := [] |}).
Proof.
  intros Hinv Hcur Hcc Hto Htick.
  rewrite (Process_armed c cc label landmarks angles act Hinv Hcur Hcc).
  apply Qge_bool_false in Hto. apply Qge_bool_false in Htick.
  rewrite Hto. cbv zeta. rewrite Hcur, Htick. cbn [bind fst snd].
  unfold flag_packets. rewrite Hcur. reflexivity.
Qed.




End Frame.

End MovingRuns.

(** ** The classifier: the table and the latches *)

Module ClassifierTable.
Import Classifier.

Lemma append_first (c : ascii) (s t : string) :
  String c s +:+ t = String c (s +:+ t).
Proof. reflexivity. Qed.

Lemma append_none (t : string) : "" +:+ t = t.
Proof. reflexivity. Qed.

Lemma append_empty (s : string) : s +:+ "" = s.
Proof.
  induction s as [|c s IH]; [reflexivity|].
  rewrite append_first, IH. reflexivity.
Qed.

Lemma append_char (s t : string) (c : ascii) :
  (s +:+ String c "") +:+ t = s +:+ String c t.
Proof.
  induction s as [|d s IH]; [reflexivity|].
  rewrite !append_first, IH. reflexivity.
Qed.

Lemma append_assoc (s t u : string) : (s +:+ t) +:+ u = s +:+ (t +:+ u).
Proof.
  induction s as [|c s IH]; [reflexivity|].
  rewrite !append_first, IH. reflexivity.
Qed.

(** Reading one line that ends with a newline character. *)
Lemma getlines_line (line : string) :
  has_newline line = false ->
  forall read rest,
    getlines read (line +:+ String newline rest)
    = (read +:+ line) :: getlines "" rest.
Proof.
  induction line as [|c line IH]; intros Hline read rest.
  - rewrite append_none, append_empty. cbn [getlines]. unfold newline.
    rewrite Ascii.eqb_refl. reflexivity.
  - cbn [has_newline] in Hline. apply orb_false_iff in Hline.
    destruct Hline as [Hc Hline]. rewrite append_first. cbn [getlines].
    unfold newline in Hc. rewrite Hc, (IH Hline), append_char. reflexivity.
Qed.

(** Reading the characters left after the last newline character. *)
Lemma getlines_last (line : string) :
  has_newline line = false ->
  forall read,
    getlines read line
    = if String.eqb (read +:+ line) "" then [] else [read +:+ line].
Proof.
  induction line as [|c line IH]; intros Hline read.
  - cbn [getlines]. rewrite append_empty. reflexivity.
  - cbn [has_newline] in Hline. apply orb_false_iff in Hline.
    destruct Hline as [Hc Hline]. cbn [getlines].
    unfold newline in Hc. rewrite Hc, (IH Hline), append_char. reflexivity.
Qed.

(** X12. The lines of a file are read back as written: a file made of
    lines without newline character, each ended by one, followed by a
    last unended line, is split into those lines, with the last one when
    it is not empty. *)
Theorem getlines_unlines (lines : list string) (last : string) :
  Forall (fun line => has_newline line = false) lines ->
  has_newline last = false ->
  getlines "" (unlines lines +:+ last)
  = lines ++ (if String.eqb last "" then [] else [last]).
Proof.
  intros Hlines Hlast. induction Hlines as [|line rest Hline _ IH].
  - cbn [unlines app]. rewrite append_none.
    apply (getlines_last last Hlast "").
  - cbn [unlines]. rewrite append_assoc, append_first.
    rewrite (getlines_line line Hline "" (unlines rest +:+ last)), IH.
    reflexivity.
Qed.

Lemma load_lines_lookup (lines : list string) :
  forall (i : Z) (table : gmap Z string) (k : Z),
    load_lines i lines table !! k
    = if (i <=? k) && (k <? i + Z.of_nat (length lines))
      then nth_error lines (Z.to_nat (k - i))
      else table !! k.
Proof.
  induction lines as [|line rest IH]; intros i table k.
  - cbn [load_lines length].
    destruct (Z.leb_spec i k), (Z.ltb_spec k (i + Z.of_nat 0)); cbn [andb];
      try reflexivity. lia.
  - cbn [load_lines]. rewrite IH. cbn [length].
    destruct (Z.leb_spec (i + 1) k) as [Hlo|Hlo];
      destruct (Z.ltb_spec k (i + 1 + Z.of_nat (length rest))) as [Hhi|Hhi];
      destruct (Z.leb_spec i k) as [Hlo'|Hlo'];
      destruct (Z.ltb_spec k (i + Z.of_nat (S (length rest)))) as [Hhi'|Hhi'];
      cbn [andb]; try lia; try (apply lookup_insert_ne; lia).
    + replace (Z.to_nat (k - i)) with (S (Z.to_nat (k - (i + 1)))) by lia.
      reflexivity.
    + assert (k = i) by lia. subst k. rewrite lookup_insert_eq.
      replace (Z.to_nat (i - i)) with 0%nat by lia. reflexivity.
Qed.

(** The table built by [Open], key by key. *)
Lemma opened_lookup (gesture_map_string : string) (c : Calculator) (k : Z) :
  Open gesture_map_string = OkStatus c ->
  gesture_map_ c !! k
  = if (0 <=? k) && (k <? Z.of_nat (length (getlines "" gesture_map_string)))
    then nth_error (getlines "" gesture_map_string) (Z.to_nat k)
    else None.
Proof.
  intros Hopen. inversion Hopen; subst. cbn [gesture_map_].
  rewrite load_lines_lookup, Z.sub_0_r, Z.add_0_l.
  destruct (_ && _); [reflexivity | apply lookup_empty].
Qed.

(** X13. [Open] stores line [k] of the file under the key [k], counting
    from 0, and nothing under any other key: a key of the table is the
    number of a line, and a key that is negative or past the last line is
    absent. *)
Theorem Open_numbers_the_lines (gesture_map_string : string) (c : Calculator)
    (k : Z) :
  Open gesture_map_string = OkStatus c ->
  (forall line,
      gesture_map_ c !! k = Some line <->
      0 <= k /\ nth_error (getlines "" gesture_map_string) (Z.to_nat k)
                = Some line)
  /\ (gesture_map_ c !! k = None <->
      k < 0 \/ Z.of_nat (length (getlines "" gesture_map_string)) <= k).
Proof.
  intros Hopen. rewrite (opened_lookup _ _ k Hopen).
  destruct (Z.leb_spec 0 k) as [Hlo|Hlo];
    destruct (Z.ltb_spec k (Z.of_nat (length (getlines "" gesture_map_string))))
      as [Hhi|Hhi]; cbn [andb].
  - split.
    + intros line. split; [intros Hline; split; [lia | exact Hline]|].
      intros [_ Hline]. exact Hline.
    + split; [|lia]. intros Hnone. apply nth_error_None in Hnone. lia.
  - split.
    + intros line. split; [discriminate|]. intros [_ Hline].
      assert (Hsome : nth_error (getlines "" gesture_map_string) (Z.to_nat k)
                      <> None) by congruence.
      apply nth_error_Some in Hsome. lia.
    + split; [intros _; right; exact Hhi | reflexivity].
  - split.
    + intros line. split; [discriminate | lia].
    + split; [intros _; left; exact Hlo | reflexivity].
  - split.
    + intros line. split; [discriminate | lia].
    + split; [intros _; left; exact Hlo | reflexivity].
Qed.

(** The frame of a detection labelled [label]. *)
Lemma Process_detection (c : Calculator) (cc : Inputs) (dets : Detections)
    (label : Z) :
  DETECTIONS cc = Some dets ->
  back_label_id dets = OkStatus label ->
  Process c cc =
  OkStatus (c,
    let now := InputTimestamp cc in
    let h := str2int (default "" (gesture_map_ c !! label)) in
    if h =? str2int transitionTag then setLatches true false false false now []
    else if h =? str2int movingTag then setLatches false true false false now []
    else if h =? str2int writingTag then setLatches false false true false now []
    else if h =? str2int fixedTag then setLatches false false false true now []
    else setLatches false false false false now
           [MakePacket true (NextAllowedInStream now)]).
Proof.
  intros Hdet Hlabel. unfold Process. rewrite Hdet, Hlabel. reflexivity.
Qed.

(** The packets of a frame whose line has the hash [h]. *)
Lemma latches_shape (h : Z) (now : Timestamp) (out : Outputs) :
  (if h =? str2int transitionTag then setLatches true false false false now []
   else if h =? str2int movingTag then setLatches false true false false now []
   else if h =? str2int writingTag then setLatches false false true false now []
   else if h =? str2int fixedTag then setLatches false false false true now []
   else setLatches false false false false now
          [MakePacket true (NextAllowedInStream now)]) = out ->
  map At (LATCH_TRANSITION out) = [now]
  /\ map At (LATCH_MOVING out) = [now]
  /\ map At (LATCH_WRITING out) = [now]
  /\ map At (LATCH_FIXED out) = [now]
  /\ ((raised out = 1%nat /\ TBD out = [])
      \/ (raised out = 0%nat /\ TBD out = [MakePacket true (now + 1)])).
Proof.
  intros <-.
  destruct (h =? str2int transitionTag);
    [|destruct (h =? str2int movingTag);
      [|destruct (h =? str2int writingTag);
        [|destruct (h =? str2int fixedTag)]]];
    unfold raised, setLatches, NextAllowedInStream;
    cbn [LATCH_TRANSITION LATCH_MOVING LATCH_WRITING LATCH_FIXED TBD map At
         value app filter length];
    repeat split; auto.
Qed.

(** X14. A frame with a detection leaves the table as it is and sends one
    packet on each of the four latches, at the input timestamp. Either one
    latch is raised and nothing is sent on TBD, or no latch is raised and
    TBD carries one release, stamped for the next allowed timestamp: two
    latches are never raised together. *)
Theorem classifier_raises_one_latch_or_releases (c c' : Calculator)
    (cc : Inputs) (dets : Detections) (out : Outputs) :
  DETECTIONS cc = Some dets ->
  Process c cc = OkStatus (c', out) ->
  c' = c
  /\ map At (LATCH_TRANSITION out) = [InputTimestamp cc]
  /\ map At (LATCH_MOVING out) = [InputTimestamp cc]
  /\ map At (LATCH_WRITING out) = [InputTimestamp cc]
  /\ map At (LATCH_FIXED out) = [InputTimestamp cc]
  /\ ((raised out = 1%nat /\ TBD out = [])
      \/ (raised out = 0%nat
          /\ TBD out = [MakePacket true (InputTimestamp cc + 1)])).
Proof.
  intros Hdet Hprocess.
  destruct (back_label_id dets) as [label|e] eqn:Hlabel.
  - rewrite (Process_detection c cc dets label Hdet Hlabel) in Hprocess.
    injection Hprocess as <- Hout. split; [reflexivity|].
    exact (latches_shape _ _ _ Hout).
  - unfold Process in Hprocess. rewrite Hdet, Hlabel in Hprocess.
    discriminate.
Qed.

(** X15. After [Open], a label that is negative or not smaller than the
    number of lines of the file raises no latch and releases the flow
    limiter. *)
Theorem classifier_label_out_of_table (gesture_map_string : string)
    (c : Calculator) (cc : Inputs) (dets : Detections) (label : Z) :
  Open gesture_map_string = OkStatus c ->
  DETECTIONS cc = Some dets ->
  back_label_id dets = OkStatus label ->
  label < 0 \/ Z.of_nat (length (getlines "" gesture_map_string)) <= label ->
  Process c cc =
  OkStatus (c, setLatches false false false false (InputTimestamp cc)
                 [MakePacket true (InputTimestamp cc + 1)]).
Proof.
  intros Hopen Hdet Hlabel Hout.
  rewrite (Process_detection c cc dets label Hdet Hlabel).
  rewrite (opened_lookup _ _ label Hopen).
  destruct (Z.leb_spec 0 label), (Z.ltb_spec label
             (Z.of_nat (length (getlines "" gesture_map_string))));
    cbn [andb]; try reflexivity. lia.
Qed.

(** X16. After [Open], the label of a line that reads exactly one of the
    four category names raises the latch of that category alone and sends
    nothing on TBD. *)
Theorem classifier_routes_named_line (gesture_map_string : string)
    (c : Calculator) (cc : Inputs) (dets : Detections) (k : nat)
    (name : string) :
  Open gesture_map_string = OkStatus c ->
  DETECTIONS cc = Some dets ->
  back_label_id dets = OkStatus (Z.of_nat k) ->
  nth_error (getlines "" gesture_map_string) k = Some name ->
  In name [transitionTag; movingTag; writingTag; fixedTag] ->
  Process c cc =
  OkStatus (c, setLatches (String.eqb name transitionTag)
                 (String.eqb name movingTag) (String.eqb name writingTag)
                 (String.eqb name fixedTag) (InputTimestamp cc) []).
Proof.
  intros Hopen Hdet Hlabel Hline Hname.
  rewrite (Process_detection c cc dets _ Hdet Hlabel).
  rewrite (opened_lookup _ _ _ Hopen), Nat2Z.id, Hline.
  assert (Hk : (k < length (getlines "" gesture_map_string))%nat)
    by (apply nth_error_Some; congruence).
  destruct (Z.leb_spec 0 (Z.of_nat k)); [|lia].
  destruct (Z.ltb_spec (Z.of_nat k)
              (Z.of_nat (length (getlines "" gesture_map_string)))); [|lia].
  cbn [andb default].
  destruct Hname as [<-|[<-|[<-|[<-|[]]]]]; reflexivity.
Qed.

(** X17. [str2int] reads a text up to its first NUL character: what
    follows plays no part, so a line made of a category name, a NUL
    character and any other text is routed as that name. *)
Theorem str2int_stops_at_NUL (text rest : string) :
  str2int (text +:+ String Ascii.zero rest) = str2int text.
Proof.
  induction text as [|ch text IH];
    [rewrite append_none; reflexivity|].
  rewrite append_first. cbn [str2int].
  destruct (Ascii.eqb ch Ascii.zero); [reflexivity|]. rewrite IH. reflexivity.
Qed.

End ClassifierTable.

(** ** The latch *)

Module LatchFacts.
Import Latch.

#[local] Arguments InputTimestamp {Data}.
#[local] Arguments LATCH {Data}.
#[local] Arguments RESET {Data}.
#[local] Arguments data {Data}.
#[local] Arguments STATE_CHANGE {Data}.
#[local] Arguments data_out {Data}.
#[local] Arguments Build_Outputs {Data}.
#[local] Arguments forward {Data}.
#[local] Arguments Process {Data}.
#[local] Arguments run {Data}.
#[local] Arguments quiet {Data}.
#[local] Arguments present {Data}.

Lemma GetContract_checks (contract : Contract) :
  GetContract contract = OkStatus tt ->
  has_LATCH contract = true
  /\ 1 <= data_inputs contract
  /\ data_outputs contract = data_inputs contract.
Proof.
  unfold GetContract, RET_CHECK. intros Hcontract.
  destruct (has_LATCH contract); [|discriminate].
  destruct (Z.leb_spec 1 (data_inputs contract)); [|discriminate].
  destruct (Z.eqb_spec (data_outputs contract) (data_inputs contract));
    [|discriminate].
  auto.
Qed.

Section Gate.

Variable Data : Type.
Variable contract : Contract.

Lemma element_at_next (done inputs : list (option (Packet Data)))
    (input : option (Packet Data)) :
  element_at (done ++ input :: inputs) (Z.of_nat (length done)) = OkStatus input.
Proof.
  unfold element_at. destruct (Z.ltb_spec (Z.of_nat (length done)) 0); [lia|].
  rewrite Nat2Z.id, nth_error_app2, Nat.sub_diag by lia. reflexivity.
Qed.

(** The loop over the data streams copies what is present on each. *)
Lemma forward_from (inputs : list (option (Packet Data))) :
  forall done : list (option (Packet Data)),
    forward (length inputs) (Z.of_nat (length done)) (done ++ inputs)
    = OkStatus (present inputs).
Proof.
  induction inputs as [|input inputs IH]; intros done; [reflexivity|].
  cbn [length forward]. rewrite element_at_next. cbn [bind].
  replace (Z.of_nat (length done) + 1)
    with (Z.of_nat (length (done ++ [input])))
    by (rewrite length_app; cbn [length]; lia).
  replace (done ++ input :: inputs) with ((done ++ [input]) ++ inputs)
    by (rewrite <- app_assoc; reflexivity).
  rewrite IH. reflexivity.
Qed.

Lemma forward_all (inputs : list (option (Packet Data))) (n : Z) :
  Z.of_nat (length inputs) = n ->
  forward (Z.to_nat n) 0 inputs = OkStatus (present inputs).
Proof.
  intros <-. rewrite Nat2Z.id. apply (forward_from inputs []).
Qed.

(** A frame on which the latch is decided, by a signal or by what the
    member holds. *)
Lemma Process_decided (c : Calculator) (cc : Inputs Data) (b : bool) :
  match RESET cc with
  | Some r =>
      if has_RESET contract then Some (negb r)
      else match LATCH cc with
           | Some l => if has_LATCH contract then Some l else latched c
           | None => latched c
           end
  | None =>
      match LATCH cc with
      | Some l => if has_LATCH contract then Some l else latched c
      | None => latched c
      end
  end = Some b ->
  Z.of_nat (length (data cc)) = num_data_streams_ c ->
  Process contract c cc =
  OkStatus
    ({| last_latch_state_ := if b then LATCH_ON else LATCH_OFF;
        num_data_streams_ := num_data_streams_ c;
        latched := Some b |},
     {| STATE_CHANGE :=
          if has_STATE_CHANGE contract
             && negb (LatchState_eqb (last_latch_state_ c) LATCH_UNINITIALIZED)
             && negb (LatchState_eqb (last_latch_state_ c)
                        (if b then LATCH_ON else LATCH_OFF))
          then [MakePacket b (InputTimestamp cc)] else [];
        data_out := if b then present (data cc)
                    else repeat [] (length (data cc)) |}).
Proof.
  intros Hdecided Hsize. unfold Process. cbv zeta. rewrite Hdecided.
  destruct b; cbn [negb].
  - rewrite (forward_all (data cc) _ Hsize). reflexivity.
  - rewrite <- Hsize, Nat2Z.id. reflexivity.
Qed.

(** X18. A RESET packet decides the frame, whatever the LATCH packet of the
    same frame says and whatever the member held before, even nothing:
    [true] closes the latch and nothing is passed on, [false] opens it
    and each data stream passes on the packet it carries. *)
Theorem latch_reset_overrides_latch (c : Calculator) (cc : Inputs Data)
    (r : bool) :
  has_RESET contract = true ->
  RESET cc = Some r ->
  Z.of_nat (length (data cc)) = num_data_streams_ c ->
  exists out,
    Process contract c cc =
    OkStatus ({| last_latch_state_ := if r then LATCH_OFF else LATCH_ON;
                 num_data_streams_ := num_data_streams_ c;
                 latched := Some (negb r) |}, out)
    /\ data_out out = if r then repeat [] (length (data cc))
                      else present (data cc).
Proof.
  intros Hdeclared Hreset Hsize. eexists. split.
  - rewrite (Process_decided c cc (negb r)); [|rewrite Hreset, Hdeclared; reflexivity|exact Hsize].
    destruct r; reflexivity.
  - destruct r; reflexivity.
Qed.

(** X19. On a node accepted by [GetContract], a LATCH packet in a frame
    without RESET packet sets the latch to its value: the data inputs are
    passed on, stream by stream, when it is [true], and nothing is passed
    on when it is [false]. *)
Theorem latch_follows_signal (c : Calculator) (cc : Inputs Data) (b : bool) :
  GetContract contract = OkStatus tt ->
  LATCH cc = Some b ->
  RESET cc = None ->
  Z.of_nat (length (data cc)) = num_data_streams_ c ->
  exists out,
    Process contract c cc =
    OkStatus ({| last_latch_state_ := if b then LATCH_ON else LATCH_OFF;
                 num_data_streams_ := num_data_streams_ c;
                 latched := Some b |}, out)
    /\ data_out out = if b then present (data cc)
                      else repeat [] (length (data cc)).
Proof.
  intros Hcontract Hlatch Hreset Hsize.
  destruct (GetContract_checks contract Hcontract) as [Hdeclared _].
  eexists. split.
  - apply Process_decided; [|exact Hsize].
    rewrite Hreset, Hlatch, Hdeclared. reflexivity.
  - reflexivity.
Qed.

Lemma settled_members (c : Calculator) (b : bool) :
  settled c b ->
  {| last_latch_state_ := if b then LATCH_ON else LATCH_OFF;
     num_data_streams_ := num_data_streams_ c;
     latched := Some b |} = c.
Proof.
  intros [Hlatched Hlast]. destruct c as [last num held].
  cbn in Hlatched, Hlast |- *. subst. reflexivity.
Qed.

Lemma Process_quiet (c : Calculator) (cc : Inputs Data) (b : bool) :
  settled c b ->
  quiet c cc ->
  Process contract c cc =
  OkStatus (c, {| STATE_CHANGE := [];
                  data_out := if b then present (data cc)
                              else repeat [] (length (data cc)) |}).
Proof.
  intros Hsettled (Hlatch & Hreset & Hsize).
  rewrite (Process_decided c cc b);
    [|rewrite Hreset, Hlatch; exact (proj1 Hsettled)|exact Hsize].
  rewrite (settled_members c b Hsettled).
  destruct Hsettled as [_ Hlast]. rewrite Hlast.
  destruct b, (has_STATE_CHANGE contract); reflexivity.
Qed.

(** X20. The latch holds: over any number of frames without LATCH and
    RESET packet the members stay as they are, no state change is
    announced, and every frame passes on its data inputs when the latch is
    open and nothing when it is closed. *)
Theorem latch_holds (c : Calculator) (b : bool) (frames : list (Inputs Data)) :
  settled c b ->
  Forall (quiet c) frames ->
  run contract c frames =
  OkStatus (c, map (fun cc =>
                      {| STATE_CHANGE := [];
                         data_out := if b then present (data cc)
                                     else repeat [] (length (data cc)) |})
                   frames).
Proof.
  intros Hsettled Hframes. induction Hframes as [|cc frames Hquiet _ IH];
    [reflexivity|].
  cbn [run map]. rewrite (Process_quiet c cc b Hsettled Hquiet). cbn [bind].
  rewrite IH. reflexivity.
Qed.

Lemma Process_settles (c c' : Calculator) (cc : Inputs Data)
    (out : Outputs Data) :
  Process contract c cc = OkStatus (c', out) ->
  exists b',
    settled c' b'
    /\ num_data_streams_ c' = num_data_streams_ c
    /\ STATE_CHANGE out =
       if has_STATE_CHANGE contract
          && negb (LatchState_eqb (last_latch_state_ c) LATCH_UNINITIALIZED)
          && negb (LatchState_eqb (last_latch_state_ c)
                     (if b' then LATCH_ON else LATCH_OFF))
       then [MakePacket b' (InputTimestamp cc)] else [].
Proof.
  unfold Process. cbv zeta.
  destruct (match RESET cc with Some _ => _ | None => _ end) as [b'|];
    [|discriminate].
  destruct b'; cbn [negb].
  - destruct (forward _ _ _) as [forwarded|e]; [|discriminate].
    cbn [bind]. intros Hprocess. injection Hprocess as <- <-.
    exists true. repeat split.
  - intros Hprocess. injection Hprocess as <- <-.
    exists false. repeat split.
Qed.

(** X21. Once the latch has been set, a frame announces a state change if
    and only if the STATE_CHANGE stream is declared and the frame changes
    the latch; the packet holds the new value, at the input timestamp. *)
Theorem latch_announces_changes (c c' : Calculator) (cc : Inputs Data)
    (out : Outputs Data) (b : bool) :
  settled c b ->
  Process contract c cc = OkStatus (c', out) ->
  exists b',
    settled c' b'
    /\ STATE_CHANGE out =
       if has_STATE_CHANGE contract && xorb b b'
       then [MakePacket b' (InputTimestamp cc)] else [].
Proof.
  intros [_ Hlast] Hprocess.
  destruct (Process_settles c c' cc out Hprocess) as (b' & Hsettled & _ & Hout).
  exists b'. split; [exact Hsettled|]. rewrite Hout, Hlast.
  destruct b, b', (has_STATE_CHANGE contract); reflexivity.
Qed.

(** X22. The first frame after [Open] announces nothing, whatever it sets
    the latch to: the state the latch starts in is not sent downstream. *)
Theorem latch_first_frame_is_silent (c c' : Calculator) (cc : Inputs Data)
    (out : Outputs Data) :
  Open contract = OkStatus c ->
  Process contract c cc = OkStatus (c', out) ->
  STATE_CHANGE out = [] /\ exists b, settled c' b.
Proof.
  intros Hopen Hprocess. injection Hopen as <-.
  destruct (Process_settles _ c' cc out Hprocess) as (b' & Hsettled & _ & Hout).
  split; [|exists b'; exact Hsettled].
  rewrite Hout. cbn [last_latch_state_ LatchState_eqb negb].
  rewrite andb_false_r. reflexivity.
Qed.

(** X23. A first frame without LATCH and RESET packet reads the member
    [latched] before anything was stored in it. *)
Theorem latch_first_frame_needs_signal (c : Calculator) (cc : Inputs Data) :
  Open contract = OkStatus c ->
  LATCH cc = None ->
  RESET cc = None ->
  Process contract c cc = ErrStatus UndefinedBehaviour.
Proof.
  intros Hopen Hlatch Hreset. injection Hopen as <-.
  unfold Process. rewrite Hlatch, Hreset. reflexivity.
Qed.

(** X24. After one frame has been processed the member is never read
    unset again: every run of frames that carry one entry for each data
    stream is processed to its end, one output for each frame. *)
Theorem latch_runs_to_the_end (c : Calculator) (b : bool)
    (frames : list (Inputs Data)) :
  settled c b ->
  Forall (fun cc => Z.of_nat (length (data cc)) = num_data_streams_ c) frames ->
  exists c' outs,
    run contract c frames = OkStatus (c', outs)
    /\ length outs = length frames
    /\ exists b', settled c' b'.
Proof.
  intros Hsettled Hframes. revert c b Hsettled Hframes.
  induction frames as [|cc frames IH]; intros c b Hsettled Hframes.
  - exists c, []. repeat split. exists b. exact Hsettled.
  - inversion Hframes as [|? ? Hsize Hrest]; subst.
    assert (Hdecided : exists b1,
      match RESET cc with
      | Some r =>
          if has_RESET contract then Some (negb r)
          else match LATCH cc with
               | Some l => if has_LATCH contract then Some l else latched c
               | None => latched c
               end
      | None =>
          match LATCH cc with
          | Some l => if has_LATCH contract then Some l else latched c
          | None => latched c
          end
      end = Some b1).
    { destruct Hsettled as [Hheld _]. rewrite Hheld.
      destruct (RESET cc), (LATCH cc), (has_RESET contract),
        (has_LATCH contract); eexists; reflexivity. }
    destruct Hdecided as [b1 Hdecided].
    pose proof (Process_decided c cc b1 Hdecided Hsize) as Hprocess.
    destruct (Process_settles _ _ _ _ Hprocess) as (b2 & Hsettled2 & Hnum & _).
    cbn [num_data_streams_] in Hnum.
    edestruct (IH _ b2 Hsettled2) as (c' & outs & Hrun & Hlen & Hlast).
    { cbn [num_data_streams_]. exact Hrest. }
    cbn [run]. rewrite Hprocess. cbn [bind]. rewrite Hrun. cbn [bind].
    eexists _, _. split; [reflexivity|]. split; [cbn [length]; lia|exact Hlast].
Qed.

End Gate.

End LatchFacts.

(** ** Gestures that start no action *)

Module UnknownGestures.

Lemma find_last_nowhere {A : Type} (p : A -> bool) (l : list A) :
  (forall a, In a l -> p a = false) -> find_last p l = None.
Proof.
  intros Hnone. unfold find_last.
  assert (Hrev : forall a, In a (rev l) -> p a = false)
    by (intros a Hin; apply Hnone, in_rev, Hin).
  induction (rev l) as [|a rest IH]; [reflexivity|].
  cbn [find]. rewrite (Hrev a (or_introl eq_refl)).
  apply IH. intros b Hin. apply Hrev. right. exact Hin.
Qed.

(** X25. [Open] of the transition engine accepts every configuration it
    is given, one without any action too, and over a run of frames whose
    labels are the start gesture of no configured pair the opened engine
    stays as opened: every frame sends the flag and no command. *)
Theorem transition_unknown_gestures
    (options_ : Transition.transitionDynamicGesturesCalculatorOptions)
    (frames : list Transition.Inputs) :
  Forall (fun cc =>
            exists input_detections label,
              Transition.DETECTIONS cc = Some input_detections
              /\ back_label_id input_detections = OkStatus label
              /\ forall m, In m (Transition.actions_map options_) ->
                           Transition.start_action m <> label) frames ->
  exists c,
    Transition.Open options_ = OkStatus c
    /\ Transition.run options_ c frames =
       OkStatus (c, map (fun cc =>
                           {| Transition.MQTT_MESSAGE := [];
                              Transition.FLAG :=
                                [MakePacket true
                                   (Transition.InputTimestamp cc + 1)] |})
                        frames).
Proof.
  intros Hframes. eexists. split.
  - unfold Transition.Open, RET_CHECK.
    destruct (Z.leb_spec 0 (Z.of_nat (length (Transition.actions_map options_))));
      [reflexivity | lia].
  - induction Hframes as [|cc frames (dets & label & Hdet & Hlabel & Hnone) _ IH];
      [reflexivity|].
    cbn [Transition.run map].
    rewrite (TransitionFacts.transition_idle_frame options_ _ cc dets label);
      [|reflexivity| |exact Hdet|exact Hlabel].
    + rewrite find_last_nowhere.
      * cbn [bind]. unfold Transition.clear, Transition.set_armed.
        cbn [Transition.actionsMap Transition.mqttMessages].
        rewrite IH. reflexivity.
      * cbn [Transition.actionsMap]. intros a Hin.
        apply in_map_iff in Hin. destruct Hin as (m & <- & Hin).
        unfold Transition.starts_with. cbn [Transition.loadAct Transition.startAction].
        apply Z.eqb_neq, Hnone, Hin.
    + cbn [Transition.actionsMap]. intros a Hin.
      apply in_map_iff in Hin. destruct Hin as (m & <- & _). reflexivity.
Qed.

(** X26. [Open] of the fixed engine accepts every configuration it is
    given, one without any action too, and over a run of frames whose
    labels are the start gesture of no configured action the opened engine
    stays as opened: every frame sends the flag and no command. *)
Theorem fixed_unknown_gestures
    (options_ : Fixed.fixedDynamicGesturesCalculatorOptions)
    (frames : list Fixed.Inputs) :
  Forall (fun cc =>
            exists label landmarks angles,
              Fixed.carries cc label landmarks angles
              /\ forall m, In m (Fixed.fixed_actions_map options_) ->
                           Fixed.start_action m <> label) frames ->
  exists c,
    Fixed.Open options_ = OkStatus c
    /\ Fixed.run options_ c frames =
       OkStatus (c, map (fun cc =>
                           {| Fixed.MQTT_MESSAGE := [];
                              Fixed.FLAG :=
                                [MakePacket true (Fixed.InputTimestamp cc + 1)] |})
                        frames).
Proof.
  intros Hframes. eexists. split.
  - unfold Fixed.Open, RET_CHECK.
    destruct (Z.leb_spec 0 (Z.of_nat (length (Fixed.fixed_actions_map options_))));
      [reflexivity | lia].
  - induction Hframes
      as [|cc frames (label & landmarks & angles & Hcc & Hnone) _ IH];
      [reflexivity|].
    cbn [Fixed.run map].
    rewrite (FixedFacts.fixed_unmatched_frame options_ _ cc label landmarks angles);
      [|reflexivity|exact Hcc|].
    + cbn [bind]. unfold Fixed.clear. cbn [Fixed.mqttMessages].
      rewrite IH. reflexivity.
    + apply find_last_nowhere. intros a Hin. unfold Fixed.starts_with.
      apply Z.eqb_neq, Hnone, Hin.
Qed.

End UnknownGestures.

(** ** The further properties at concrete frames *)

(** X1 on the first pair of the example configuration: gesture 0 at t = 0,
    gesture 2 at 1.4 s. *)
Lemma transition_start_then_end_witness :
  exists c1,
    Transition.Process Examples.transition_options
      (Examples.transition_opened Examples.transition_options)
      (Examples.transition_frame 0 0)
    = OkStatus (c1, {| Transition.MQTT_MESSAGE := []; Transition.FLAG := [] |})
    /\ Transition.Process Examples.transition_options c1
         (Examples.transition_frame 1400000 2)
       = OkStatus
           (Examples.transition_opened Examples.transition_options,
            {| Transition.MQTT_MESSAGE :=
                 [MakePacket [Examples.message "KEY_POWER"] 1400001];
               Transition.FLAG := [MakePacket true 1400001] |}).
Proof.
  apply (TransitionRuns.transition_start_then_end Examples.transition_options
           (Examples.transition_opened Examples.transition_options)
           (Examples.transition_frame 0 0)
           (Examples.transition_frame 1400000 2)
           [{| label_id := [0] |}] [{| label_id := [2] |}]
           (Transition.loadAct Examples.transition_pair_first)).
  - split; reflexivity.
  - reflexivity.
  - reflexivity.
  - reflexivity.
  - reflexivity.
  - reflexivity.
  - reflexivity.
  - intros H. vm_compute in H. apply H. reflexivity.
Defined.

(** X2 on the run of those two frames. *)
Lemma transition_commands_are_configured_witness :
  Forall (fun out =>
            Transition.MQTT_MESSAGE out = []
            \/ exists m now,
                 In m (Transition.actions_map Examples.transition_options)
                 /\ Transition.MQTT_MESSAGE out
                    = [MakePacket [Transition.mqtt_message m] now])
    [{| Transition.MQTT_MESSAGE := []; Transition.FLAG := [] |};
     {| Transition.MQTT_MESSAGE :=
          [MakePacket [Examples.message "KEY_POWER"] 1400001];
        Transition.FLAG := [MakePacket true 1400001] |}].
Proof.
  apply (TransitionRuns.transition_commands_are_configured
           Examples.transition_options
           [Examples.transition_frame 0 0; Examples.transition_frame 1400000 2]
           (Examples.transition_opened Examples.transition_options)
           (Examples.transition_opened Examples.transition_options));
    reflexivity.
Defined.

(** X3 on a frame of gesture 3 with one angle. *)
Lemma fixed_reads_stay_in_range_witness :
  (exists c' out,
      Fixed.Process
        (Examples.fixed_options [Examples.fixed_mute; Examples.fixed_windows])
        Examples.fixed_opened (Examples.fixed_frame 0 3 0.5%Q)
      = OkStatus (c', out))
  \/ (exists message,
         Fixed.Process
           (Examples.fixed_options [Examples.fixed_mute; Examples.fixed_windows])
           Examples.fixed_opened (Examples.fixed_frame 0 3 0.5%Q)
         = ErrStatus (RetCheckFailure message)).
Proof.
  apply (FixedRuns.fixed_reads_stay_in_range
           (Examples.fixed_options [Examples.fixed_mute; Examples.fixed_windows])
           Examples.fixed_opened (Examples.fixed_frame 0 3 0.5%Q) 3
           [{| x := 0%Q; y := 0%Q; z := 0%Q |}]
           [{| angle1 := 0.5%Q; angle2 := 0%Q |}]).
  - split; [reflexivity|]. intros act H. discriminate H.
  - concrete_frame.
  - intros act lm [<-|[<-|[]]] H; [discriminate H|].
    injection H as <-. cbn. lia.
  - intros act [<-|[<-|[]]] H; [|discriminate H]. vm_compute. discriminate.
Defined.

(** X4 on the same frame: the command of the window of 0.5 is sent, with
    the flag. *)
Lemma fixed_frame_outputs_witness :
  exists c' out,
    Fixed.Process
      (Examples.fixed_options [Examples.fixed_mute; Examples.fixed_windows])
      Examples.fixed_opened (Examples.fixed_frame 0 3 0.5%Q)
    = OkStatus (c', out)
    /\ (Fixed.MQTT_MESSAGE out = []
        \/ exists cmd,
             topic cmd <> "empty"
             /\ Fixed.MQTT_MESSAGE out = [MakePacket [cmd] 1])
    /\ ((Fixed.currentAction c' = None
         /\ Fixed.FLAG out = [MakePacket true 1])
        \/ (exists act, Fixed.currentAction c' = Some act)
           /\ Fixed.FLAG out = [] /\ Fixed.MQTT_MESSAGE out = []).
Proof.
  eexists _, _. split; [reflexivity|].
  apply (FixedRuns.fixed_frame_outputs
           (Examples.fixed_options [Examples.fixed_mute; Examples.fixed_windows])
           Examples.fixed_opened _ (Examples.fixed_frame 0 3 0.5%Q)).
  - split; [reflexivity|]. intros act H. discriminate H.
  - reflexivity.
Defined.

(** X5: gesture 1 has fired at t = 0; gesture 3 at 0.1 s fires at once. *)
Lemma fixed_label_change_fires_at_once_witness :
  Fixed.Process
    (Examples.fixed_options [Examples.fixed_mute; Examples.fixed_windows])
    (Examples.fixed_fired Examples.fixed_mute 0)
    (Examples.fixed_frame 100000 3 0.5%Q)
  = OkStatus
      (Examples.fixed_fired Examples.fixed_windows 100000,
       {| Fixed.MQTT_MESSAGE := [MakePacket [Examples.message "UP"] 100001];
          Fixed.FLAG := [MakePacket true 100001] |}).
Proof.
  apply (FixedRuns.fixed_label_change_fires_at_once
           (Examples.fixed_options [Examples.fixed_mute; Examples.fixed_windows])
           (Examples.fixed_fired Examples.fixed_mute 0)
           (Examples.fixed_frame 100000 3 0.5%Q) 3
           [{| x := 0%Q; y := 0%Q; z := 0%Q |}]
           [{| angle1 := 0.5%Q; angle2 := 0%Q |}]
           Examples.fixed_windows (Examples.message "UP")).
  - split; [reflexivity|]. intros act H. discriminate H.
  - concrete_frame.
  - reflexivity.
  - vm_compute. discriminate.
  - reflexivity.
  - reflexivity.
  - vm_compute. discriminate.
  - reflexivity.
Defined.


(** X7: the engine armed on gesture 6 treats a frame labelled 4 as one
    labelled 6. *)
Lemma moving_armed_ignores_label_witness :
  Moving.Process Examples.moving_options Examples.moving_armed
    (Examples.moving_frame 500000 6 0.5%Q 0.15%Q)
  = Moving.Process Examples.moving_options Examples.moving_armed
      (Examples.moving_frame 500000 4 0.5%Q 0.15%Q).
Proof.
  apply (MovingRuns.moving_armed_ignores_label Examples.moving_options
           Examples.moving_armed
           (Examples.moving_frame 500000 6 0.5%Q 0.15%Q)
           (Examples.moving_frame 500000 4 0.5%Q 0.15%Q) 6 4
           [{| x := 0.5%Q; y := 0%Q; z := 0%Q |}]
           [{| angle1 := 0.15%Q; angle2 := 0%Q |}]
           Examples.moving_rotation).
  - split; [reflexivity|]. intros act H. inversion H. reflexivity.
  - reflexivity.
  - concrete_frame.
  - concrete_frame.
  - reflexivity.
Defined.


(** X9: the frame at 0.1 s, before the interval of 0.5 s. *)
Lemma moving_quiet_frame_witness :
  Moving.Process Examples.moving_options Examples.moving_armed
    (Examples.moving_frame 100000 6 0.5%Q 0.15%Q)
  = OkStatus (Examples.moving_armed,
              {| Moving.MQTT_MESSAGE := []; Moving.FLAG := [] |}).
Proof.
  apply (MovingRuns.moving_quiet_frame Examples.moving_options
           Examples.moving_armed
           (Examples.moving_frame 100000 6 0.5%Q 0.15%Q) 6
           [{| x := 0.5%Q; y := 0%Q; z := 0%Q |}]
           [{| angle1 := 0.15%Q; angle2 := 0%Q |}]
           Examples.moving_rotation).
  - split; [reflexivity|]. intros act H. inversion H. reflexivity.
  - reflexivity.
  - concrete_frame.
  - intros H. vm_compute in H. apply H. reflexivity.
  - intros H. vm_compute in H. apply H. reflexivity.
Defined.



(** X12 on a file of two ended lines followed by an unended one. *)
Lemma getlines_unlines_witness :
  Classifier.getlines ""
    (Classifier.unlines Examples.classifier_lines +:+ "fixed")
  = ["transition"; "moving"; "fixed"].
Proof.
  apply (ClassifierTable.getlines_unlines Examples.classifier_lines "fixed").
  - repeat constructor.
  - reflexivity.
Defined.

(** X13 on the table of two lines: key 1 holds the second line, key 2
    holds nothing. *)
Lemma Open_numbers_the_lines_witness :
  exists c,
    Classifier.Open (Classifier.unlines Examples.classifier_lines) = OkStatus c
    /\ Classifier.gesture_map_ c !! 1 = Some "moving"
    /\ Classifier.gesture_map_ c !! 2 = None.
Proof.
  eexists. split; [reflexivity|]. split.
  - apply (ClassifierTable.Open_numbers_the_lines
             (Classifier.unlines Examples.classifier_lines) _ 1 eq_refl).
    split; [lia | reflexivity].
  - apply (ClassifierTable.Open_numbers_the_lines
             (Classifier.unlines Examples.classifier_lines) _ 2 eq_refl).
    right. vm_compute. discriminate.
Defined.

(** X14 on a frame labelled 1 of that table. *)
Lemma classifier_raises_one_latch_or_releases_witness :
  exists c out,
    Classifier.Open (Classifier.unlines Examples.classifier_lines) = OkStatus c
    /\ Classifier.Process c (Examples.classifier_frame 40 1) = OkStatus (c, out)
    /\ map At (Classifier.LATCH_MOVING out) = [40]
    /\ ((Classifier.raised out = 1%nat /\ Classifier.TBD out = [])
        \/ (Classifier.raised out = 0%nat
            /\ Classifier.TBD out = [MakePacket true 41])).
Proof.
  eexists _, (Classifier.setLatches false true false false 40 []).
  split; [reflexivity|].
  assert (Hprocess :
    Classifier.Process
      {| Classifier.gesture_map_ :=
           Classifier.load_lines 0
             (Classifier.getlines ""
                (Classifier.unlines Examples.classifier_lines)) ∅;
         Classifier.disabled := false |}
      (Examples.classifier_frame 40 1)
    = OkStatus
        ({| Classifier.gesture_map_ :=
              Classifier.load_lines 0
                (Classifier.getlines ""
                   (Classifier.unlines Examples.classifier_lines)) ∅;
            Classifier.disabled := false |},
         Classifier.setLatches false true false false 40 []))
    by (vm_compute; reflexivity).
  split; [exact Hprocess|].
  destruct (ClassifierTable.classifier_raises_one_latch_or_releases _ _
              (Examples.classifier_frame 40 1) [{| label_id := [1] |}] _
              eq_refl Hprocess)
    as (_ & _ & Hmoving & _ & _ & Hraised).
  split; [exact Hmoving | exact Hraised].
Defined.

(** X15 on a frame labelled 7 of the table of two lines. *)
Lemma classifier_label_out_of_table_witness :
  exists c,
    Classifier.Open (Classifier.unlines Examples.classifier_lines) = OkStatus c
    /\ Classifier.Process c (Examples.classifier_frame 40 7)
       = OkStatus (c, Classifier.setLatches false false false false 40
                        [MakePacket true 41]).
Proof.
  eexists. split; [reflexivity|].
  apply (ClassifierTable.classifier_label_out_of_table
           (Classifier.unlines Examples.classifier_lines) _
           (Examples.classifier_frame 40 7) [{| label_id := [7] |}] 7).
  - reflexivity.
  - reflexivity.
  - reflexivity.
  - right. vm_compute. discriminate.
Defined.

(** X16 on a frame labelled 1 of the table of two lines. *)
Lemma classifier_routes_named_line_witness :
  exists c,
    Classifier.Open (Classifier.unlines Examples.classifier_lines) = OkStatus c
    /\ Classifier.Process c (Examples.classifier_frame 40 1)
       = OkStatus (c, Classifier.setLatches false true false false 40 []).
Proof.
  eexists. split; [reflexivity|].
  apply (ClassifierTable.classifier_routes_named_line
           (Classifier.unlines Examples.classifier_lines) _
           (Examples.classifier_frame 40 1) [{| label_id := [1] |}] 1%nat
           "moving").
  - reflexivity.
  - reflexivity.
  - reflexivity.
  - reflexivity.
  - right. left. reflexivity.
Defined.

(** X18: an open latch receives LATCH = true and RESET = true in one
    frame. *)
Lemma latch_reset_overrides_latch_witness :
  exists out,
    Latch.Process Z Examples.latch_contract (Examples.latch_settled true)
      (Examples.latch_frame 5 (Some true) (Some true))
    = OkStatus (Examples.latch_settled false, out)
    /\ Latch.data_out Z out = [[]; []].
Proof.
  apply (LatchFacts.latch_reset_overrides_latch Z Examples.latch_contract
           (Examples.latch_settled true)
           (Examples.latch_frame 5 (Some true) (Some true)) true);
    reflexivity.
Defined.

(** X19: the first frame after [Open] carries LATCH = true. *)
Lemma latch_follows_signal_witness :
  exists out,
    Latch.Process Z Examples.latch_contract
      {| Latch.last_latch_state_ := Latch.LATCH_UNINITIALIZED;
         Latch.num_data_streams_ := 2; Latch.latched := None |}
      (Examples.latch_frame 5 (Some true) None)
    = OkStatus (Examples.latch_settled true, out)
    /\ Latch.data_out Z out = [[MakePacket 7 5]; []].
Proof.
  apply (LatchFacts.latch_follows_signal Z Examples.latch_contract
           {| Latch.last_latch_state_ := Latch.LATCH_UNINITIALIZED;
              Latch.num_data_streams_ := 2; Latch.latched := None |}
           (Examples.latch_frame 5 (Some true) None) true);
    reflexivity.
Defined.

(** X20: two frames without signal on an open latch. *)
Lemma latch_holds_witness :
  Latch.run Z Examples.latch_contract (Examples.latch_settled true)
    [Examples.latch_frame 6 None None; Examples.latch_frame 7 None None]
  = OkStatus (Examples.latch_settled true,
              [{| Latch.STATE_CHANGE := [];
                  Latch.data_out := [[MakePacket 7 6]; []] |};
               {| Latch.STATE_CHANGE := [];
                  Latch.data_out := [[MakePacket 7 7]; []] |}]).
Proof.
  apply (LatchFacts.latch_holds Z Examples.latch_contract
           (Examples.latch_settled true) true
           [Examples.latch_frame 6 None None; Examples.latch_frame 7 None None]).
  - split; reflexivity.
  - repeat constructor.
Defined.

(** X21: an open latch receives LATCH = false. *)
Lemma latch_announces_changes_witness :
  exists b',
    Latch.settled (Examples.latch_settled false) b'
    /\ [MakePacket false 8]
       = if Latch.has_STATE_CHANGE Examples.latch_contract && xorb true b'
         then [MakePacket b' 8] else [].
Proof.
  apply (LatchFacts.latch_announces_changes Z Examples.latch_contract
           (Examples.latch_settled true) (Examples.latch_settled false)
           (Examples.latch_frame 8 (Some false) None)
           {| Latch.STATE_CHANGE := [MakePacket false 8];
              Latch.data_out := [[]; []] |} true).
  - split; reflexivity.
  - reflexivity.
Defined.

(** X22: the first frame after [Open] opens the latch. *)
Lemma latch_first_frame_is_silent_witness :
  Latch.STATE_CHANGE Z
    {| Latch.STATE_CHANGE := []; Latch.data_out := [[MakePacket 7 5]; []] |}
  = []
  /\ exists b, Latch.settled (Examples.latch_settled true) b.
Proof.
  apply (LatchFacts.latch_first_frame_is_silent Z Examples.latch_contract
           {| Latch.last_latch_state_ := Latch.LATCH_UNINITIALIZED;
              Latch.num_data_streams_ := 2; Latch.latched := None |}
           (Examples.latch_settled true)
           (Examples.latch_frame 5 (Some true) None));
    reflexivity.
Defined.

(** X23: the first frame after [Open] carries no signal. *)
Lemma latch_first_frame_needs_signal_witness :
  Latch.Process Z Examples.latch_contract
    {| Latch.last_latch_state_ := Latch.LATCH_UNINITIALIZED;
       Latch.num_data_streams_ := 2; Latch.latched := None |}
    (Examples.latch_frame 5 None None)
  = ErrStatus UndefinedBehaviour.
Proof.
  apply (LatchFacts.latch_first_frame_needs_signal Z Examples.latch_contract);
    reflexivity.
Defined.

(** X24: three frames on a latch that has been set. *)
Lemma latch_runs_to_the_end_witness :
  exists c' outs,
    Latch.run Z Examples.latch_contract (Examples.latch_settled false)
      [Examples.latch_frame 6 None None; Examples.latch_frame 7 (Some true) None;
       Examples.latch_frame 8 None (Some true)]
    = OkStatus (c', outs)
    /\ length outs = 3%nat
    /\ exists b', Latch.settled c' b'.
Proof.
  apply (LatchFacts.latch_runs_to_the_end Z Examples.latch_contract
           (Examples.latch_settled false) false
           [Examples.latch_frame 6 None None;
            Examples.latch_frame 7 (Some true) None;
            Examples.latch_frame 8 None (Some true)]).
  - split; reflexivity.
  - repeat constructor.
Defined.

(** X25 on the configuration without any pair. *)
Lemma transition_unknown_gestures_witness :
  exists c,
    Transition.Open {| Transition.time_out_s := 1.5%Q;
                       Transition.actions_map := [] |} = OkStatus c
    /\ Transition.run {| Transition.time_out_s := 1.5%Q;
                         Transition.actions_map := [] |} c
         [Examples.transition_frame 0 0; Examples.transition_frame 100000 2]
       = OkStatus (c, [{| Transition.MQTT_MESSAGE := [];
                          Transition.FLAG := [MakePacket true 1] |};
                       {| Transition.MQTT_MESSAGE := [];
                          Transition.FLAG := [MakePacket true 100001] |}]).
Proof.
  apply (UnknownGestures.transition_unknown_gestures
           {| Transition.time_out_s := 1.5%Q; Transition.actions_map := [] |}
           [Examples.transition_frame 0 0; Examples.transition_frame 100000 2]).
  repeat constructor.
  - exists [{| label_id := [0] |}], 0. repeat split. intros m [].
  - exists [{| label_id := [2] |}], 2. repeat split. intros m [].
Defined.

(** X26 on the configuration without any action. *)
Lemma fixed_unknown_gestures_witness :
  exists c,
    Fixed.Open (Examples.fixed_options []) = OkStatus c
    /\ Fixed.run (Examples.fixed_options []) c
         [Examples.fixed_frame 0 1 0%Q; Examples.fixed_frame 100000 3 0%Q]
       = OkStatus (c, [{| Fixed.MQTT_MESSAGE := [];
                          Fixed.FLAG := [MakePacket true 1] |};
                       {| Fixed.MQTT_MESSAGE := [];
                          Fixed.FLAG := [MakePacket true 100001] |}]).
Proof.
  apply (UnknownGestures.fixed_unknown_gestures (Examples.fixed_options [])
           [Examples.fixed_frame 0 1 0%Q; Examples.fixed_frame 100000 3 0%Q]).
  repeat constructor.
  - exists 1, [{| x := 0%Q; y := 0%Q; z := 0%Q |}],
      [{| angle1 := 0%Q; angle2 := 0%Q |}].
    split; [concrete_frame | intros m []].
  - exists 3, [{| x := 0%Q; y := 0%Q; z := 0%Q |}],
      [{| angle1 := 0%Q; angle2 := 0%Q |}].
    split; [concrete_frame | intros m []].
Defined.
